(** * Marketing agent: conversation memory, query pipeline, tool adapters
      and baseline scoring of [src/agent.py]

    The development embeds the orchestration layer of [MarketingAgent]:
    the per-user memory store, [process_query], the history reader, the
    baseline runner with its scoring function, and the two table-driven
    tool adapters whose outputs the specification pins down.

    Conventions of the embedding.
    - A Python [str] is a [string]: a sequence of code points below 256.
    - A Python [dict] whose key order is observable (it is serialised) is
      an association list in insertion order; the memory store, which is
      only looked up, inserted into and deleted from, is a [gmap].
    - A Python [float] is the rational it denotes; every arithmetic
      operation rounds its exact result to binary64 (module [Float64]).
    - A dictionary a caller passes in as context holds values
      [json.dumps] encodes or instances it raises on (module [PyObj]); a
      record of [baseline.json] may lack any of its keys.
    - Code that reads the clock, calls the reasoning service, mutates the
      store or raises runs in the state-and-exception monad [M]. *)

From Stdlib Require Import ZArith QArith Ascii String DecimalString Lia.
From Stdlib Require Import Uint63 PrimFloat SpecFloat FloatOps.
From stdpp Require Import base strings list gmap.

Close Scope Q_scope.
Open Scope Z_scope.
Open Scope nat_scope.

(** ** Python strings *)

Module PyStr.

Definition chr (n : nat) : ascii := ascii_of_nat n.
Definition ord (c : ascii) : nat := nat_of_ascii c.

Definition quote : string := String (chr 34) EmptyString.
Definition newline : string := String (chr 10) EmptyString.

(** [str.lower()], on code points below 256: A-Z and the Latin-1
    capitals (all of U+00C0..U+00DE but the multiplication sign). On
    these [str.lower()] maps each character by itself; beyond them it
    looks at the neighbours of a character (a capital sigma at the end
    of a word), which no statement about [lower] below covers. *)
Definition lower_char (c : ascii) : ascii :=
  let n := ord c in
  if ((65 <=? n) && (n <=? 90)) ||
     ((192 <=? n) && (n <=? 222) && negb (n =? 215))
  then chr (n + 32) else c.

Fixpoint lower (s : string) : string :=
  match s with
  | EmptyString => EmptyString
  | String c s' => String (lower_char c) (lower s')
  end.

(** [str.isspace()] for one code point below 256. *)
Definition isspace (c : ascii) : bool :=
  let n := ord c in
  ((9 <=? n) && (n <=? 13)) || ((28 <=? n) && (n <=? 32)) ||
  (n =? 133) || (n =? 160).

Fixpoint lstrip (s : string) : string :=
  match s with
  | String c s' => if isspace c then lstrip s' else s
  | EmptyString => EmptyString
  end.

(** The string without its trailing white space: a character is kept
    when something that is kept, or is not white space, follows. *)
Fixpoint rstrip (s : string) : string :=
  match s with
  | EmptyString => EmptyString
  | String c s' =>
      match rstrip s' with
      | EmptyString => if isspace c then EmptyString else String c EmptyString
      | r => String c r
      end
  end.

(** [s.strip()] *)
Definition strip (s : string) : string := rstrip (lstrip s).

(** [s.split(sep, 1)] for a one-character separator: the text before
    the first separator and the text after it, or [s] alone. *)
Fixpoint split1 (sep : ascii) (s : string) : list string :=
  match s with
  | EmptyString => [EmptyString]
  | String c s' =>
      if Ascii.eqb c sep then [EmptyString; s']
      else match split1 sep s' with
           | [a] => [String c a]
           | a :: rest => String c a :: rest
           | [] => []
           end
  end.

(** [needle in hay] *)
Fixpoint contains (needle hay : string) : bool :=
  String.prefix needle hay ||
  match hay with
  | EmptyString => false
  | String _ hay' => contains needle hay'
  end.

(** [sep.join(parts)] *)
Fixpoint join (sep : string) (parts : list string) : string :=
  match parts with
  | [] => EmptyString
  | [p] => p
  | p :: rest => p +:+ sep +:+ join sep rest
  end.

(** [str(n)] for an integer. *)
Definition of_int (n : Z) : string := NilEmpty.string_of_int (Z.to_int n).

(** [repr] of a list of strings none of which holds a quote, a
    backslash or a non-printable character (the table keys). *)
Definition repr_list (l : list string) : string :=
  "[" +:+ join ", " (map (fun s => "'" +:+ s +:+ "'") l) +:+ "]".

End PyStr.

(** ** JSON values and [json.dumps] *)

Module Json.
Import PyStr.

(** The values [json.dumps] is applied to in this program: [None],
    booleans, integers, strings, lists, and dictionaries with string
    keys in insertion order. *)
#[warnings="-register-all"]
Inductive json : Type :=
| JNull
| JBool (b : bool)
| JInt (n : Z)
| JStr (s : string)
| JList (l : list json)
| JDict (d : list (string * json)).

Definition hex_digit (n : nat) : ascii :=
  if n <? 10 then chr (48 + n) else chr (87 + n).

(** One character of a string under [ensure_ascii=True]. *)
Definition escape_char (c : ascii) : string :=
  let n := ord c in
  if n =? 34 then String (chr 92) quote
  else if n =? 92 then String (chr 92) (String (chr 92) EmptyString)
  else if n =? 10 then String (chr 92) "n"
  else if n =? 13 then String (chr 92) "r"
  else if n =? 9 then String (chr 92) "t"
  else if n =? 8 then String (chr 92) "b"
  else if n =? 12 then String (chr 92) "f"
  else if (32 <=? n) && (n <=? 126) then String c EmptyString
  else String (chr 92)
         ("u00" +:+ String (hex_digit (n / 16))
                    (String (hex_digit (n mod 16)) EmptyString)).

Fixpoint escape (s : string) : string :=
  match s with
  | EmptyString => EmptyString
  | String c s' => escape_char c +:+ escape s'
  end.

Definition encode_str (s : string) : string := quote +:+ escape s +:+ quote.

(** [json.dumps(j)]: the default separators [", "] and [": "]. *)
Fixpoint dumps (j : json) : string :=
  match j with
  | JNull => "null"
  | JBool true => "true"
  | JBool false => "false"
  | JInt n => of_int n
  | JStr s => encode_str s
  | JList l => "[" +:+ join ", " (map dumps l) +:+ "]"
  | JDict d =>
      "{" +:+ join ", " (map (fun kv => encode_str (fst kv) +:+ ": " +:+ dumps (snd kv)) d)
          +:+ "}"
  end.

Fixpoint spaces (n : nat) : string :=
  match n with
  | O => EmptyString
  | S n' => String (chr 32) (spaces n')
  end.

(** [json.dumps(j, indent=step)] at nesting depth [level]: one item
    per line, separators [","] and [": "], empty containers closed on
    the spot. *)
Fixpoint dumps_indent (step level : nat) (j : json) : string :=
  let inner := newline +:+ spaces (step * S level) in
  let outer := newline +:+ spaces (step * level) in
  match j with
  | JList [] => "[]"
  | JList l =>
      "[" +:+ inner
          +:+ join ("," +:+ inner) (map (dumps_indent step (S level)) l)
          +:+ outer +:+ "]"
  | JDict [] => "{}"
  | JDict d =>
      "{" +:+ inner
          +:+ join ("," +:+ inner)
                (map (fun kv => encode_str (fst kv) +:+ ": "
                                  +:+ dumps_indent step (S level) (snd kv)) d)
          +:+ outer +:+ "}"
  | _ => dumps j
  end.

(** [d[key]] / [d.get(key)] on a dictionary. *)
Fixpoint get (key : string) (d : list (string * json)) : option json :=
  match d with
  | [] => None
  | (k, v) :: d' => if String.eqb k key then Some v else get key d'
  end.

(** [d[key] = v]: an existing key keeps its place, a new one goes last. *)
Fixpoint set (key : string) (v : json) (d : list (string * json))
  : list (string * json) :=
  match d with
  | [] => [(key, v)]
  | (k, w) :: d' =>
      if String.eqb k key then (k, v) :: d' else (k, w) :: set key v d'
  end.

(** [d.update(e)] *)
Definition update (d e : list (string * json)) : list (string * json) :=
  fold_left (fun acc kv => set (fst kv) (snd kv) acc) e d.

Definition strs (l : list string) : json := JList (map JStr l).

End Json.

(** ** Python floats *)

(** A finite binary64 value is modelled by the rational it denotes, kept
  in lowest terms. Every operation computes its exact rational result
  and rounds it to the nearest binary64 value, ties to even, with 53
  significant bits and gradual underflow, as IEEE 754 prescribes. No
  quantity of this program leaves the finite range (all are ratios and
  weighted sums of list lengths), so overflow is not represented. *)
Module Float64.

Definition float : Type := Q.

(** The integer nearest to [n / d] for [d > 0], ties to even. *)
Definition rne (n d : Z) : Z :=
  let q := (n / d)%Z in
  match (2 * (n mod d) ?= d)%Z with
  | Lt => q
  | Gt => (q + 1)%Z
  | Eq => if Z.even q then q else (q + 1)%Z
  end.

(** The fraction [a / (b * 2^e)]. *)
Definition scaled (a b e : Z) : Z * Z :=
  if (0 <=? e)%Z then (a, (b * 2 ^ e)%Z) else ((a * 2 ^ (- e))%Z, b).

(** The exponent of the unit in the last place of [a / b]: the [e]
    with [2^52 <= a / (b * 2^e) < 2^53], no lower than [-1074]. *)
Definition ulp_exp (a b : Z) : Z :=
  let e0 := (Z.log2 a - Z.log2 b - 52)%Z in
  let '(n0, d0) := scaled a b e0 in
  let e1 := if (2 ^ 52 <=? n0 / d0)%Z then e0 else (e0 - 1)%Z in
  Z.max e1 (-1074).

Definition pow2 (e : Z) : Q :=
  if (0 <=? e)%Z then inject_Z (2 ^ e) else 1 # Z.to_pos (2 ^ (- e)).

Definition round_pos (a b : Z) : Q :=
  let e := ulp_exp a b in
  let '(n, d) := scaled a b e in
  Qred (inject_Z (rne n d) * pow2 e).

(** Rounding of an exact result to binary64. *)
Definition round (q : Q) : float :=
  let r := Qred q in
  match Qnum r with
  | Z0 => 0%Q
  | Zpos a => round_pos (Zpos a) (Zpos (Qden r))
  | Zneg a => Qred (- round_pos (Zpos a) (Zpos (Qden r)))
  end.

(** A literal such as [0.4]: the decimal [n / 10^k], rounded. *)
Definition literal (n : Z) (k : nat) : float := round (n # Z.to_pos (10 ^ Z.of_nat k)).

(** [float(n)] for an integer. *)
Definition of_int (n : Z) : float := round (inject_Z n).

Definition add (x y : float) : float := round (x + y).
Definition mul (x y : float) : float := round (x * y).

(** [x / y] on floats with [y] non-zero. *)
Definition div (x y : float) : float := round (x / y).

(** [a / b] on integers with [b] positive: the quotient itself is
    rounded, once. *)
Definition truediv (a b : Z) : float := round (a # Z.to_pos b).

Definition ltb (x y : float) : bool :=
  match (x ?= y)%Q with Lt => true | _ => false end.

(** [x >= y] *)
Definition geb (x y : float) : bool := Qle_bool y x.

(** [min(x, y)]: the second argument only when it is smaller. *)
Definition min (x y : float) : float := if ltb y x then y else x.

(** The rational denoted by a hardware float (finite values). *)
Definition of_spec (f : spec_float) : Q :=
  match f with
  | S754_finite s m e =>
      Qred ((if s then inject_Z (Zneg m) else inject_Z (Zpos m)) * pow2 e)
  | _ => 0%Q
  end.

Definition of_prim (f : PrimFloat.float) : Q := of_spec (Prim2SF f).

(** The hardware quotient of two small integers, and the hardware value
    of the weighted sum of three scores. *)
Definition hardware_quotient (a b : PrimInt63.int) : PrimFloat.float :=
  PrimFloat.div (PrimFloat.of_uint63 a) (PrimFloat.of_uint63 b).

Definition hardware_overall (keyword_score marketing_score length_score : PrimFloat.float)
  : PrimFloat.float :=
  PrimFloat.add
    (PrimFloat.add
       (PrimFloat.mul keyword_score (hardware_quotient 4 10))
       (PrimFloat.mul marketing_score (hardware_quotient 4 10)))
    (PrimFloat.mul length_score (hardware_quotient 2 10)).

End Float64.

(** ** Lists the Python way *)

Module PyList.

(** [l[start:]]: a negative [start] counts from the end, and an index
    out of range is clamped. *)
Definition slice_from {A : Type} (start : Z) (l : list A) : list A :=
  let n := Z.of_nat (length l) in
  let i := if (start <? 0)%Z then Z.max (start + n) 0 else Z.min start n in
  drop (Z.to_nat i) l.

(** [range(0, n, 2)] *)
Definition range_step2 (n : nat) : list nat :=
  map (fun j => 2 * j) (seq 0 (Nat.div2 (S n))).

(** [sum(1 for x in l if p x)] *)
Fixpoint count_where {A : Type} (p : A -> bool) (l : list A) : nat :=
  match l with
  | [] => 0
  | x :: l' => (if p x then 1 else 0) + count_where p l'
  end.

(** [any(p x for x in l)] *)
Fixpoint any {A : Type} (p : A -> bool) (l : list A) : bool :=
  match l with
  | [] => false
  | x :: l' => p x || any p l'
  end.

End PyList.

(** ** The LangChain objects the agent holds *)

Inductive Role : Type := Human | AI.

(** [HumanMessage(content=...)] and [AIMessage(content=...)]. *)
Record BaseMessage : Type := { role : Role; content : string }.

Definition HumanMessage (text : string) : BaseMessage :=
{| role := Human; content := text |}.
Definition AIMessage (text : string) : BaseMessage :=
{| role := AI; content := text |}.

(** [ConversationBufferWindowMemory]. Its [chat_memory.messages] is the
  plain list every added message is appended to; the window size [k]
  is applied by the [buffer] view alone, which [load_memory_variables]
  returns, and never shortens the list. *)
Record ConversationBufferWindowMemory : Type := {
k : Z;
return_messages : bool;
memory_key : string;
chat_memory : list BaseMessage
}.

(** [memory.buffer] with [return_messages=True]:
  [chat_memory.messages[-k * 2:] if k > 0 else []]. *)
Definition buffer (m : ConversationBufferWindowMemory) : list BaseMessage :=
if (0 <? k m)%Z then PyList.slice_from (- k m * 2) (chat_memory m) else [].

(** [chat_memory.add_user_message] / [add_ai_message] on one memory. *)
Definition add_message (msg : BaseMessage) (m : ConversationBufferWindowMemory)
: ConversationBufferWindowMemory :=
{| k := k m; return_messages := return_messages m;
   memory_key := memory_key m; chat_memory := chat_memory m ++ [msg] |}.

(** What [agent_executor.invoke] is given and what it returns. With
  [return_intermediate_steps=True] the answer always has an ["output"];
  the steps are kept as their printed form. *)
Record AgentInput : Type := { input : string; chat_history : list BaseMessage }.
Record AgentOutput : Type := {
output : string;
intermediate_steps : option (list string)
}.

(** A raised exception, by its [str(e)]. *)
Inductive exn : Type := Exception (msg : string).
Definition str_of_exn (e : exn) : string := let 'Exception msg := e in msg.

(** ** Python values handed to [json.dumps] *)

Module PyObj.
Import Json.

(** A value of a dictionary a caller passes in: [None], a boolean, an
    integer, a string, a list or a dictionary with string keys of such
    values, all of which [json.dumps] encodes, or an instance of a class
    it has no encoding for (a [datetime], a [set], an object of the
    caller), known by the name of its class. Floats, which it encodes
    too, are left out. *)
#[warnings="-register-all"]
Inductive pyobj : Type :=
| PNone
| PBool (b : bool)
| PInt (n : Z)
| PStr (s : string)
| PList (l : list pyobj)
| PDict (d : list (string * pyobj))
| PInstance (class_name : string).

(** The [TypeError] of the encoder, by its text. *)
Definition not_serializable (class_name : string) : exn :=
  Exception ("Object of type " +:+ class_name +:+ " is not JSON serializable").

(** The JSON value the encoder walks through, or the [TypeError] of the
    first instance it meets, items taken in order. *)
Fixpoint to_json (v : pyobj) : exn + json :=
  match v with
  | PNone => inr JNull
  | PBool b => inr (JBool b)
  | PInt n => inr (JInt n)
  | PStr s => inr (JStr s)
  | PList l =>
      match (fix items (l : list pyobj) : exn + list json :=
               match l with
               | [] => inr []
               | x :: l' =>
                   match to_json x with
                   | inl e => inl e
                   | inr j =>
                       match items l' with
                       | inl e => inl e
                       | inr js => inr (j :: js)
                       end
                   end
               end) l with
      | inl e => inl e
      | inr js => inr (JList js)
      end
  | PDict d =>
      match (fix items (d : list (string * pyobj)) : exn + list (string * json) :=
               match d with
               | [] => inr []
               | (key, x) :: d' =>
                   match to_json x with
                   | inl e => inl e
                   | inr j =>
                       match items d' with
                       | inl e => inl e
                       | inr js => inr ((key, j) :: js)
                       end
                   end
               end) d with
      | inl e => inl e
      | inr js => inr (JDict js)
      end
  | PInstance class_name => inl (not_serializable class_name)
  end.

(** [json.dumps(v)]: the text, or the [TypeError]; nothing is written
    before the error. *)
Definition json_dumps (v : pyobj) : exn + string :=
  match to_json v with
  | inl e => inl e
  | inr j => inr (dumps j)
  end.

(** The value holds no instance the encoder would stop at. *)
Fixpoint serializable (v : pyobj) : bool :=
  match v with
  | PList l => forallb serializable l
  | PDict d => forallb (fun kv => serializable (snd kv)) d
  | PInstance _ => false
  | _ => true
  end.

End PyObj.

(** ** Records of the agent *)

(** The dictionary [process_query] returns; a key the source leaves out
  is [None]. *)
Record QueryResult : Type := {
response : string;
result_steps : option (list string);
error : option string;
confidence : Float64.float;
timestamp : string;
user_id : string
}.

(** One record of [baseline.json]; a key the record lacks is [None].
  ["question"] is read with [question["question"]], which raises
  [KeyError] for a record without it, the other keys with [.get]. *)
Record Question : Type := {
id : option string;
question : option string;
expected_answer : option string;
keywords : option (list string)
}.

Record BaselineEvaluation : Type := {
eval_passed : bool;
eval_confidence : Float64.float;
keyword_matches : nat;
total_keywords : nat;
marketing_relevance : Float64.float;
response_length : nat
}.

(** One element of the report's ["results"]. *)
Record BaselineEntry : Type := {
entry_question_id : string;
entry_question : string;
entry_expected : option string;
entry_actual : option string;
entry_error : option string;
entry_passed : bool;
entry_confidence : Float64.float;
entry_evaluation : option BaselineEvaluation
}.

(** What [run_baseline_test] returns: the one-key error dictionary or
  the report. *)
Inductive BaselineOutput : Type :=
| BaselineError (error_text : string)
| BaselineReport (agent_type : string) (total_questions : nat) (passed : nat)
               (average_confidence : Float64.float)
               (results : list BaselineEntry) (report_timestamp : string).

(** One element of the list [get_user_conversation_history] returns. *)
Record HistoryEntry : Type := {
user_message : string;
agent_response : string;
history_timestamp : string
}.

(** ** Scoring of a baseline response *)

Module Scoring.
Import PyStr PyList.

Definition marketing_terms : list string :=
  ["platform"; "compliance"; "strategy"; "campaign"; "audience"; "creative"].

Definition keyword_score_of (matches : nat) (expected_keywords : list string)
  : Float64.float :=
  match expected_keywords with
  | [] => Float64.literal 5 1
  | _ => Float64.truediv (Z.of_nat matches) (Z.of_nat (length expected_keywords))
  end.

Definition marketing_score_of (response_lower : string) : Float64.float :=
  Float64.truediv
    (Z.of_nat (count_where (fun term => contains term response_lower) marketing_terms))
    (Z.of_nat (length marketing_terms)).

Definition length_score_of (response : string) : Float64.float :=
  Float64.min (Float64.truediv (Z.of_nat (String.length response)) 200)
              (Float64.literal 1 0).

Definition overall_score_of (keyword_score marketing_score length_score : Float64.float)
  : Float64.float :=
  Float64.add
    (Float64.add (Float64.mul keyword_score (Float64.literal 4 1))
                 (Float64.mul marketing_score (Float64.literal 4 1)))
    (Float64.mul length_score (Float64.literal 2 1)).

(** [_evaluate_baseline_response]. With the keywords a list of strings
    nothing in the body raises, so the handler that would return
    [passed=False] with an ["error"] is never entered. *)
Definition _evaluate_baseline_response (q : Question) (response : string)
  : BaselineEvaluation :=
  let expected_keywords := default [] (keywords q) in
  let response_lower := lower response in
  let keyword_matches :=
    count_where (fun keyword => contains (lower keyword) response_lower)
                expected_keywords in
  let keyword_score := keyword_score_of keyword_matches expected_keywords in
  let marketing_score := marketing_score_of response_lower in
  let length_score := length_score_of response in
  let overall_score := overall_score_of keyword_score marketing_score length_score in
  {| eval_passed := Float64.geb overall_score (Float64.literal 6 1);
     eval_confidence := overall_score;
     keyword_matches := keyword_matches;
     total_keywords := length expected_keywords;
     marketing_relevance := marketing_score;
     response_length := String.length response |}.

End Scoring.

(** ** Tool adapters *)

Module Tools.
Import PyStr PyList Json.

(** One value of the table [_load_platform_compliance] returns; a key
    a platform does not have is [None]. *)
Record PlatformRules : Type := {
  allowed : bool;
  restrictions : option (list string);
  workarounds : option (list string);
  best_practices : option (list string);
  creative_strategies : option (list string)
}.

Definition _load_platform_compliance : list (string * PlatformRules) :=
  [ ("facebook",
     {| allowed := false;
        restrictions := Some ["no_cannabis_content"; "no_cbd_ads"; "no_hemp_mention"];
        workarounds := Some ["wellness_angle"; "lifestyle_focus"; "educational_content"];
        best_practices := None;
        creative_strategies :=
          Some ["plant_based_wellness"; "natural_remedies"; "health_and_wellness"] |});
    ("instagram",
     {| allowed := false;
        restrictions :=
          Some ["no_cannabis_imagery"; "no_product_promotion"; "no_dispensary_ads"];
        workarounds := Some ["brand_awareness"; "educational_posts"; "community_building"];
        best_practices := None;
        creative_strategies :=
          Some ["lifestyle_branding"; "wellness_education"; "brand_storytelling"] |});
    ("google_ads",
     {| allowed := false;
        restrictions :=
          Some ["no_cannabis_keywords"; "no_cbd_products"; "no_dispensary_promotion"];
        workarounds := Some ["wellness_keywords"; "educational_content"; "brand_terms"];
        best_practices := None;
        creative_strategies :=
          Some ["health_and_wellness"; "natural_products"; "educational_focus"] |});
    ("weedmaps",
     {| allowed := true;
        restrictions :=
          Some ["age_verification"; "licensed_operators_only"; "compliant_imagery"];
        workarounds := None;
        best_practices :=
          Some ["high_quality_photos"; "detailed_descriptions"; "customer_reviews"];
        creative_strategies :=
          Some ["product_showcase"; "strain_education"; "deals_and_promotions"] |});
    ("leafly",
     {| allowed := true;
        restrictions :=
          Some ["verified_dispensaries"; "accurate_product_info"; "professional_content"];
        workarounds := None;
        best_practices :=
          Some ["educational_content"; "strain_reviews"; "dispensary_profiles"];
        creative_strategies :=
          Some ["expert_content"; "strain_spotlights"; "educational_series"] |}) ].

Fixpoint lookup_platform (platform : string) (table : list (string * PlatformRules))
  : option PlatformRules :=
  match table with
  | [] => None
  | (name, rules) :: table' =>
      if String.eqb name platform then Some rules else lookup_platform platform table'
  end.

(** The body of the loop over [rules["restrictions"]]: what one
    restriction appends to [violations]. *)
Definition violation_of (content_lower restriction : string) : list string :=
  if String.eqb restriction "no_cannabis_content" &&
     any (fun word => contains word content_lower) ["cannabis"; "marijuana"; "weed"; "thc"]
  then ["Contains cannabis-related content"]
  else if String.eqb restriction "no_cbd_ads" && contains "cbd" content_lower
  then ["Contains CBD references"]
  else if String.eqb restriction "no_hemp_mention" && contains "hemp" content_lower
  then ["Contains hemp references"]
  else [].

Definition violations_of (content_lower : string) (rules : PlatformRules) : list string :=
  match restrictions rules with
  | Some rs => concat (map (violation_of content_lower) rs)
  | None => []
  end.

(** What [_check_platform_compliance] computes before it serialises:
    a message (left) or the [compliance_result] dictionary (right). *)
Definition compliance_result (platform_and_content : string)
  : string + list (string * json) :=
  match split1 ":" platform_and_content with
  | [part0; part1] =>
      let platform := lower (strip part0) in
      let content := strip part1 in
      match lookup_platform platform _load_platform_compliance with
      | None =>
          inl ("Platform '" +:+ platform +:+ "' not recognized. Available: "
                 +:+ repr_list (map fst _load_platform_compliance))
      | Some rules =>
          let result0 :=
            [ ("platform", JStr platform);
              ("allowed", JBool (allowed rules));
              ("content_analysis", JDict []);
              ("recommendations", JList []) ] in
          let content_lower := lower content in
          let violations := violations_of content_lower rules in
          let result1 := set "violations" (strs violations) result0 in
          let result2 :=
            match violations, workarounds rules with
            | _ :: _, Some ws =>
                set "recommendations"
                    (strs (map (fun w => "Try " +:+ w +:+ " approach") ws)) result1
            | _, _ => result1
            end in
          let result3 :=
            match creative_strategies rules with
            | Some cs => set "creative_strategies" (strs cs) result2
            | None => result2
            end in
          inr result3
      end
  | _ => inl "Please format as 'platform:content'"
  end.

(** [_check_platform_compliance]: nothing in the body raises on a
    string, so the handler returning ["Compliance check error: ..."]
    is never entered. *)
Definition _check_platform_compliance (platform_and_content : string) : string :=
  match compliance_result platform_and_content with
  | inl message => message
  | inr result => dumps_indent 2 0 (JDict result)
  end.

Definition node (name action : string) : json :=
  JDict [("node", JStr name); ("action", JStr action)].

(** The three bundles [_simulate_n8n_workflow] passes to [update]. *)
Definition content_approval_bundle : list (string * json) :=
  [ ("workflow_name", JStr "Content Approval & Distribution");
    ("trigger", JStr "Webhook - Content Upload");
    ("nodes", JList
       [ node "HTTP Request" "Receive content upload";
         node "OCR" "Extract text from images";
         node "GPT-4 Analysis" "Compliance check";
         node "Conditional" "Route based on compliance";
         node "Email" "Send approval notification";
         node "Social Media Posting" "Auto-publish if approved" ]);
    ("expected_outcomes", strs
       [ "Automated compliance checking"; "Reduced manual review time";
         "Consistent brand messaging"; "Platform-specific content optimization" ]);
    ("automation_benefits", strs
       [ "85% reduction in review time"; "100% compliance checking";
         "Multi-platform distribution"; "Audit trail for all content" ]) ].

Definition campaign_optimization_bundle : list (string * json) :=
  [ ("workflow_name", JStr "Campaign Performance Optimization");
    ("trigger", JStr "Schedule - Daily at 9 AM");
    ("nodes", JList
       [ node "API Call" "Fetch campaign metrics";
         node "Data Analysis" "Calculate performance KPIs";
         node "Conditional" "Check performance thresholds";
         node "Budget Adjustment" "Auto-adjust spend allocation";
         node "Slack Notification" "Alert team of changes";
         node "Report Generation" "Create performance summary" ]);
    ("expected_outcomes", strs
       [ "Automatic budget optimization"; "Real-time performance monitoring";
         "Proactive campaign adjustments"; "Data-driven decision making" ]);
    ("automation_benefits", strs
       [ "24/7 campaign monitoring"; "Immediate response to performance changes";
         "Optimized ad spend allocation"; "Improved ROI tracking" ]) ].

Definition generic_bundle : list (string * json) :=
  [ ("workflow_name", JStr "Generic Marketing Automation");
    ("trigger", JStr "Custom trigger based on requirements");
    ("nodes", JList
       [ node "Data Input" "Collect marketing data";
         node "Processing" "Analyze and transform data";
         node "Decision Logic" "Apply business rules";
         node "Action Execution" "Perform marketing actions";
         node "Monitoring" "Track results and performance" ]);
    ("expected_outcomes", strs
       [ "Streamlined marketing processes"; "Consistent execution";
         "Data-driven insights"; "Scalable operations" ]) ].

(** The dictionary [workflow_simulation] starts as. *)
Definition empty_workflow : list (string * json) :=
  [ ("workflow_name", JStr EmptyString); ("trigger", JStr EmptyString);
    ("nodes", JList []); ("expected_outcomes", JList []);
    ("automation_benefits", JList []) ].

(** The [workflow_simulation] dictionary before it is serialised. *)
Definition workflow_simulation (workflow_description : string) : list (string * json) :=
  let description_lower := lower workflow_description in
  if contains "content" description_lower && contains "approval" description_lower
  then update empty_workflow content_approval_bundle
  else if contains "campaign" description_lower
          && contains "optimization" description_lower
  then update empty_workflow campaign_optimization_bundle
  else update empty_workflow generic_bundle.

(** [_simulate_n8n_workflow] *)
Definition _simulate_n8n_workflow (workflow_description : string) : string :=
  dumps_indent 2 0 (JDict (workflow_simulation workflow_description)).

End Tools.

(** ** The agent *)

(** How a method ends: with a value or with an exception. *)
Inductive outcome (A : Type) : Type :=
| Return (a : A)
| Raise (e : exn).
Arguments Return {A} a.
Arguments Raise {A} e.

Section Agent.

(** Everything outside the agent: the reasoning service and the clock.
    [agent_executor_invoke] answers a request with an exception or an
    output, [datetime_now] yields [datetime.now().isoformat()]; both
    may move the world on. *)
Context {World : Type}.
Variable agent_executor_invoke : World -> AgentInput -> (exn + AgentOutput) * World.
Variable datetime_now : World -> string * World.

(** The state a method runs in: the world, the two attributes of
    [self] the methods use, and a ghost log of the requests sent to
    the reasoning service, oldest first, which no method reads. *)
Record State : Type := {
  world : World;
  memory_store : gmap string ConversationBufferWindowMemory;
  baseline_questions : list Question;
  invoked : list AgentInput
}.

Definition with_world (w : World) (st : State) : State :=
  {| world := w; memory_store := memory_store st;
     baseline_questions := baseline_questions st; invoked := invoked st |}.

Definition with_store (m : gmap string ConversationBufferWindowMemory) (st : State)
  : State :=
  {| world := world st; memory_store := m;
     baseline_questions := baseline_questions st; invoked := invoked st |}.

(** The state [__init__] leaves behind. *)
Definition init (w : World) (questions : list Question) : State :=
  {| world := w; memory_store := ∅; baseline_questions := questions; invoked := [] |}.

(** *** State and exceptions *)

Definition M (A : Type) : Type := State -> outcome A * State.

Definition ret {A : Type} (a : A) : M A := fun st => (Return a, st).

Definition bind {A B : Type} (c : M A) (f : A -> M B) : M B :=
  fun st =>
    match c st with
    | (Return a, st') => f a st'
    | (Raise e, st') => (Raise e, st')
    end.

(** [try: body / except Exception as e: handler e]. What the body did
    to the state before it raised stays done. *)
Definition try_except {A : Type} (body : M A) (handler : exn -> M A) : M A :=
  fun st =>
    match body st with
    | (Return a, st') => (Return a, st')
    | (Raise e, st') => handler e st'
    end.

Notation "x <- c1 ;; c2" := (bind c1 (fun x => c2))
  (at level 20, c1 at level 99, c2 at level 200, right associativity).
Notation "c1 ;; c2" := (bind c1 (fun _ => c2))
  (at level 100, c2 at level 200, right associativity).

(** A computation that may raise and touches no state. *)
Definition lift {A : Type} (r : exn + A) : M A :=
  fun st =>
    match r with
    | inl e => (Raise e, st)
    | inr a => (Return a, st)
    end.

(** A [for] loop that threads the local variable [acc]. *)
Fixpoint for_each {A B : Type} (l : list A) (acc : B) (body : B -> A -> M B) : M B :=
  match l with
  | [] => ret acc
  | x :: l' => acc' <- body acc x ;; for_each l' acc' body
  end.

Definition now_isoformat : M string :=
  fun st => let '(t, w) := datetime_now (world st) in (Return t, with_world w st).

(** [await asyncio.to_thread(self.agent_executor.invoke, request)] *)
Definition invoke (request : AgentInput) : M AgentOutput :=
  fun st =>
    let '(answer, w) := agent_executor_invoke (world st) request in
    let st' := {| world := w; memory_store := memory_store st;
                  baseline_questions := baseline_questions st;
                  invoked := invoked st ++ [request] |} in
    match answer with
    | inl e => (Raise e, st')
    | inr out => (Return out, st')
    end.

(** *** Memory *)

Definition new_memory : ConversationBufferWindowMemory :=
  {| k := 10; return_messages := true; memory_key := "chat_history";
     chat_memory := [] |}.

(** [_get_user_memory]. The object returned is the one stored under
    [user_id]; the embedding hands back its current value and later
    writes go through the key, which names the same object as long as
    the entry is not deleted in between. *)
Definition _get_user_memory (user_id : string) : M ConversationBufferWindowMemory :=
  fun st =>
    match memory_store st !! user_id with
    | Some memory => (Return memory, st)
    | None =>
        (Return new_memory, with_store (<[user_id := new_memory]> (memory_store st)) st)
    end.

(** [memory.chat_memory.add_user_message] / [add_ai_message] on the
    memory stored under [user_id]. *)
Definition add_to_memory (user_id : string) (msg : BaseMessage) : M unit :=
  fun st => (Return tt, with_store (alter (add_message msg) user_id (memory_store st)) st).

(** The messages stored for a user, none for an unknown one. *)
Definition messages_of (st : State) (user_id : string) : list BaseMessage :=
  match memory_store st !! user_id with
  | Some memory => chat_memory memory
  | None => []
  end.

(** [clear_user_memory] *)
Definition clear_user_memory (user_id : string) : M unit :=
  fun st => (Return tt, with_store (delete user_id (memory_store st)) st).

(** *** Queries *)

(** The text sent on: [f"Context: {json.dumps(context)}\n\nQuery: {query}"]
    when [context] is truthy (given and not empty), else [query]; or
    the [TypeError] [json.dumps] raises on a context it cannot encode. *)
Definition with_context (query : string) (context : option (list (string * PyObj.pyobj)))
  : exn + string :=
  match context with
  | Some (item :: items) =>
      match PyObj.json_dumps (PyObj.PDict (item :: items)) with
      | inl e => inl e
      | inr dumped =>
          inr ("Context: " +:+ dumped +:+ PyStr.newline +:+ PyStr.newline
                 +:+ "Query: " +:+ query)
      end
  | _ => inr query
  end.

(** [process_query]. The line the handler writes to the log is left out. *)
Definition process_query (user_id query : string)
           (context : option (list (string * PyObj.pyobj))) : M QueryResult :=
  try_except
    (memory <- _get_user_memory user_id ;;
     query <- lift (with_context query context) ;;
     result <- invoke {| input := query; chat_history := chat_memory memory |} ;;
     add_to_memory user_id (HumanMessage query) ;;
     add_to_memory user_id (AIMessage (output result)) ;;
     now <- now_isoformat ;;
     ret {| response := output result;
            result_steps := Some (default [] (intermediate_steps result));
            error := None;
            confidence := Float64.literal 85 2;
            timestamp := now;
            user_id := user_id |})
    (fun e =>
       now <- now_isoformat ;;
       ret {| response := "I encountered an error processing your marketing query: "
                            +:+ str_of_exn e;
              result_steps := None;
              error := Some (str_of_exn e);
              confidence := Float64.literal 0 1;
              timestamp := now;
              user_id := user_id |}).

(** [get_user_conversation_history] *)
Definition get_user_conversation_history (user_id : string) (limit : Z)
  : M (list HistoryEntry) :=
  fun st =>
    match memory_store st !! user_id with
    | None => (Return [], st)
    | Some memory =>
        let messages := PyList.slice_from (- limit * 2) (chat_memory memory) in
        for_each (PyList.range_step2 (length messages)) []
          (fun history i =>
             match messages !! i, messages !! (i + 1) with
             | Some m, Some m' =>
                 now <- now_isoformat ;;
                 ret (history ++ [ {| user_message := content m;
                                      agent_response := content m';
                                      history_timestamp := now |} ])
             | _, _ => ret history
             end) st
    end.

(** *** Baseline run *)

Definition matches_id (question_id : string) (q : Question) : bool :=
  match id q with
  | Some i => String.eqb i question_id
  | None => false
  end.

(** The questions [run_baseline_test] selects: those whose id is
    [question_id], or all of them when [question_id] is missing or
    empty. *)
Definition chosen (question_id : option string) (questions : list Question)
  : list Question :=
  match question_id with
  | Some (String c s) => List.filter (matches_id (String c s)) questions
  | _ => questions
  end.

(** The questions the loop goes over: [questions[:5]]. *)
Definition selected (question_id : option string) (questions : list Question)
  : list Question :=
  take 5 (chosen question_id questions).

(** The context every baseline query is sent with. *)
Definition test_mode : option (list (string * PyObj.pyobj)) :=
  Some [("test_mode", PyObj.PBool true)].

(** [question["question"]]: the text, or the [KeyError], whose [str] is
    the key in quotes. *)
Definition question_text (q : Question) : M string :=
  lift (match question q with
        | Some text => inr text
        | None => inl (Exception "'question'")
        end).

(** [sum(r.get("confidence", 0) for r in results)], added left to
    right from the integer 0. *)
Definition sum_confidence (results : list BaselineEntry) : Float64.float :=
  fold_left (fun acc r => Float64.add acc (entry_confidence r)) results 0%Q.

(** [sum(...) / len(results) if results else 0] *)
Definition average_confidence_of (results : list BaselineEntry) : Float64.float :=
  match results with
  | [] => 0%Q
  | _ => Float64.div (sum_confidence results)
                     (Float64.of_int (Z.of_nat (length results)))
  end.

(** One turn of the loop: the entry appended to [results]. Both the
    body and the handler read [question["question"]]; an exception the
    handler raises leaves the loop and the method. *)
Definition baseline_step (results : list BaselineEntry) (q : Question)
  : M (list BaselineEntry) :=
  try_except
    (text <- question_text q ;;
     answer <- process_query "baseline_test" text test_mode ;;
     let evaluation := Scoring._evaluate_baseline_response q (response answer) in
     text' <- question_text q ;;
     ret (results ++ [ {| entry_question_id := default "unknown" (id q);
                          entry_question := text';
                          entry_expected := Some (default EmptyString (expected_answer q));
                          entry_actual := Some (response answer);
                          entry_error := None;
                          entry_passed := eval_passed evaluation;
                          entry_confidence := eval_confidence evaluation;
                          entry_evaluation := Some evaluation |} ]))
    (fun e =>
       text <- question_text q ;;
       ret (results ++ [ {| entry_question_id := default "unknown" (id q);
                            entry_question := text;
                            entry_expected := None;
                            entry_actual := None;
                            entry_error := Some (str_of_exn e);
                            entry_passed := false;
                            entry_confidence := Float64.literal 0 1;
                            entry_evaluation := None |} ])).

(** [run_baseline_test] *)
Definition run_baseline_test (question_id : option string) : M BaselineOutput :=
  fun st =>
    match baseline_questions st with
    | [] => (Return (BaselineError "No baseline questions available"), st)
    | questions =>
        (results <- for_each (selected question_id questions) [] baseline_step ;;
         clear_user_memory "baseline_test" ;;
         now <- now_isoformat ;;
         ret (BaselineReport
                "marketing"
                (length results)
                (PyList.count_where entry_passed results)
                (average_confidence_of results)
                results
                now)) st
    end.

(** *** Sequences of calls *)

(** A call of one of the four public methods. *)
Inductive Call : Type :=
| CallQuery (user_id query : string) (context : option (list (string * PyObj.pyobj)))
| CallHistory (user_id : string) (limit : Z)
| CallClear (user_id : string)
| CallBaseline (question_id : option string).

(** The state one call leaves behind. *)
Definition run_call (c : Call) (st : State) : State :=
  match c with
  | CallQuery user_id query context => snd (process_query user_id query context st)
  | CallHistory user_id limit => snd (get_user_conversation_history user_id limit st)
  | CallClear user_id => snd (clear_user_memory user_id st)
  | CallBaseline question_id => snd (run_baseline_test question_id st)
  end.

(** The state a sequence of calls, made one after the other, leaves. *)
Definition run_calls (calls : list Call) (st : State) : State :=
  fold_left (fun st c => run_call c st) calls st.

End Agent.

(** ** Vocabulary of the statements *)

(** The messages of a list taken two by two, an odd one out dropped. *)
Fixpoint pair_up (l : list BaseMessage) : list (string * string) :=
  match l with
  | m :: m' :: rest => (content m, content m') :: pair_up rest
  | _ => []
  end.

Definition exchange_of (h : HistoryEntry) : string * string :=
  (user_message h, agent_response h).

(** The messages a list of exchanges is stored as. *)
Fixpoint turns (exchanges : list (string * string)) : list BaseMessage :=
  match exchanges with
  | [] => []
  | (q, a) :: rest => HumanMessage q :: AIMessage a :: turns rest
  end.

Definition other (r : Role) : Role :=
  match r with Human => AI | AI => Human end.

(** The roles of [l] alternate, the first being [first]. *)
Fixpoint alternates (first : Role) (l : list BaseMessage) : Prop :=
  match l with
  | [] => True
  | m :: rest => role m = first /\ alternates (other first) rest
  end.

(** The store with a fresh memory put under [user_id] unless one is
    there: what [_get_user_memory] leaves. *)
Definition ensure (user_id : string) (store : gmap string ConversationBufferWindowMemory)
  : gmap string ConversationBufferWindowMemory :=
  match store !! user_id with
  | Some _ => store
  | None => <[user_id := new_memory]> store
  end.

(** The messages a store holds for a user, none for an unknown one. *)
Definition store_messages (store : gmap string ConversationBufferWindowMemory)
           (user_id : string) : list BaseMessage :=
  match store !! user_id with
  | Some memory => chat_memory memory
  | None => []
  end.

(** The text a baseline run sends for a question text: the text under
    the context [test_mode]. *)
Definition baseline_input (text : string) : string :=
  "Context: " +:+ Json.dumps (Json.JDict [("test_mode", Json.JBool true)])
    +:+ PyStr.newline +:+ PyStr.newline +:+ "Query: " +:+ text.

(** The question texts of the records that have one, in order. *)
Definition texts_of (qs : list Question) : list string := omap question qs.


(** Every memory of the store holds whole exchanges: a user turn, then
    the agent turn that answers it. *)
Definition well_paired (store : gmap string ConversationBufferWindowMemory) : Prop :=
  forall user_id, exists exchanges, store_messages store user_id = turns exchanges.

(** The store after one exchange was added to the memory of [user_id]. *)
Definition record_exchange (user_id text answer : string)
           (store : gmap string ConversationBufferWindowMemory)
  : gmap string ConversationBufferWindowMemory :=
  alter (add_message (AIMessage answer)) user_id
    (alter (add_message (HumanMessage text)) user_id (ensure user_id store)).

(** ** A scripted world *)

(** A reasoning service that reads its answers off a list (and raises
    once the list is used up) and a clock that counts. *)
Module Script.

Record world : Type := { answers : list (exn + AgentOutput); ticks : nat }.

Definition invoke (w : world) (request : AgentInput) : (exn + AgentOutput) * world :=
  match answers w with
  | a :: rest => (a, {| answers := rest; ticks := ticks w |})
  | [] => (inl (Exception "no answer left"), w)
  end.

Definition now (w : world) : string * world :=
  ("T" +:+ PyStr.of_int (Z.of_nat (ticks w)),
   {| answers := answers w; ticks := S (ticks w) |}).

Definition says (text : string) : exn + AgentOutput :=
  inr {| output := text; intermediate_steps := Some [] |}.

Definition fails (text : string) : exn + AgentOutput := inl (Exception text).

Definition start (script : list (exn + AgentOutput)) (questions : list Question)
  : State :=
  init {| answers := script; ticks := 0 |} questions.

End Script.

(** ** Sample inputs *)

(** Concrete inputs at which the general statements below are
    instantiated. *)
Module Samples.
Import Script.

Definition sample_question : Question :=
  {| id := Some "q1"; question := Some "How do we grow reach?";
     expected_answer := None; keywords := Some ["Reach"; "budget"] |}.

Fixpoint repeat_text (n : nat) (s : string) : string :=
  match n with O => EmptyString | S n' => s +:+ repeat_text n' s end.


Definition numbered (prefix : string) (n : nat) : list string :=
  map (fun i => prefix +:+ PyStr.of_int (Z.of_nat i)) (seq 1 n).

(** Eleven queries of one user, each answered. *)
Definition eleven_calls : list (@Call) :=
  map (fun q => CallQuery "u" q None) (numbered "q" 11).

Definition eleven_answers : list (exn + AgentOutput) := map says (numbered "a" 11).

Definition after_eleven : State :=
  run_calls invoke now eleven_calls (start eleven_answers []).

(** A new agent whose reasoning service will answer once, or fail once. *)
Definition answering : State := start [says "hi"] [].
Definition failing : State := start [fails "service down"] [].

(** The agent after one answered query without context. *)
Definition after_one : State :=
  run_calls invoke now [CallQuery "u" "hello" None] answering.

Definition one_memory : ConversationBufferWindowMemory :=
  {| k := 10; return_messages := true; memory_key := "chat_history";
     chat_memory := [HumanMessage "hello"; AIMessage "hi"] |}.

(** Seven baseline questions and an agent that has loaded them. *)
Definition seven_questions : list Question :=
  map (fun i => {| id := Some ("b" +:+ PyStr.of_int (Z.of_nat i));
                   question := Some ("Question " +:+ PyStr.of_int (Z.of_nat i));
                   expected_answer := None;
                   keywords := Some ["platform"] |}) (seq 1 7).

Definition with_seven : State := start (map says (numbered "answer " 7)) seven_questions.

Definition without_questions : State := start [] [].

End Samples.

(** ** The other tool adapters *)

Module Adapters.
Import PyStr PyList Json.

(** The two strategies [_generate_creative_strategy] fills
    [creative_strategy] with. *)
Definition wellness_strategy : list (string * json) :=
  [ ("primary_approach", JStr "Wellness and Lifestyle Focus");
    ("messaging_framework", strs
       [ "Plant-based wellness solutions"; "Natural health and relaxation";
         "Lifestyle enhancement and balance"; "Educational content about botanicals" ]);
    ("visual_strategy", strs
       [ "Nature and botanical imagery"; "Wellness lifestyle photography";
         "Clean, minimalist design"; "Avoid cannabis leaf imagery" ]);
    ("content_themes", strs
       [ "Wellness Wednesday tips"; "Natural remedies education";
         "Mindfulness and relaxation"; "Plant-based lifestyle content" ]);
    ("compliance_notes", strs
       [ "Focus on wellness benefits without cannabis mention";
         "Use educational angle for content";
         "Emphasize natural and organic aspects" ]) ].

Definition direct_strategy : list (string * json) :=
  [ ("primary_approach", JStr "Direct Cannabis Marketing");
    ("messaging_framework", strs
       [ "Product quality and craftsmanship"; "Strain-specific benefits and effects";
         "Expert cultivation and processing"; "Community and culture celebration" ]);
    ("visual_strategy", strs
       [ "High-quality product photography"; "Behind-the-scenes cultivation";
         "Professional dispensary imagery"; "Cannabis culture celebration" ]);
    ("content_themes", strs
       [ "Strain spotlights and education"; "Cultivation process transparency";
         "Customer testimonials and reviews"; "Industry news and trends" ]);
    ("compliance_notes", strs
       [ "Ensure age-gating on all content"; "Include required legal disclaimers";
         "Verify licensing compliance" ]) ].

Definition restricted_platforms : list string := ["facebook"; "instagram"; "google"].

(** [is_restricted] of [_generate_creative_strategy]. *)
Definition is_restricted (brief : string) : bool :=
  any (fun platform => contains platform (lower brief)) restricted_platforms.

(** The [creative_strategy] dictionary before it is serialised: the
    five keys are created empty and then assigned one by one. *)
Definition creative_strategy (brief : string) : list (string * json) :=
  let empty :=
    [ ("primary_approach", JStr EmptyString); ("messaging_framework", JList []);
      ("visual_strategy", JList []); ("content_themes", JList []);
      ("compliance_notes", JList []) ] in
  update empty (if is_restricted brief then wellness_strategy else direct_strategy).

(** [_generate_creative_strategy] *)
Definition _generate_creative_strategy (brief : string) : string :=
  dumps_indent 2 0 (JDict (creative_strategy brief)).

Definition cpc (avg range : string) : json :=
  JDict [("avg_cpc", JStr avg); ("range", JStr range)].

(** The [market_data] every analysis starts from. *)
Definition market_data : list (string * json) :=
  [ ("cannabis_market_size", JDict
       [ ("us_legal_market_2024", JStr "$33.6B");
         ("projected_2028", JStr "$57.8B");
         ("cagr", JStr "14.8%") ]);
    ("platform_cpc_estimates", JDict
       [ ("weedmaps", cpc "$2.50" "$1.50-$4.00");
         ("leafly", cpc "$3.20" "$2.00-$5.50");
         ("google_wellness", cpc "$4.80" "$3.00-$8.00");
         ("facebook_wellness", cpc "$2.10" "$1.20-$3.50") ]);
    ("demographics", JDict
       [ ("primary_age_group", JStr "25-44");
         ("gender_split", JDict [("male", JStr "52%"); ("female", JStr "48%")]);
         ("income_bracket", JStr "$50K-$100K");
         ("education", JStr "college_educated_majority") ]);
    ("trending_products", strs
       [ "nano_emulsion_beverages"; "high_cbd_wellness_products";
         "craft_cannabis_flower"; "precision_dose_edibles" ]) ].

Definition cost_insights : json :=
  JDict [ ("lowest_cpc_platform", JStr "Facebook (wellness angle)");
          ("highest_quality_traffic", JStr "Weedmaps/Leafly");
          ("best_roi_strategy", JStr "Multi-platform wellness approach") ].

Definition audience_insights : json :=
  JDict [ ("peak_engagement_times", strs ["7-9pm weekdays"; "12-3pm weekends"]);
          ("top_interests", strs ["wellness"; "natural_products"; "lifestyle"; "health"]);
          ("content_preferences", strs ["educational"; "behind_the_scenes"; "product_reviews"]) ].

Definition asks_cost (query : string) : bool :=
  contains "cpc" (lower query) || contains "cost" (lower query).

Definition asks_audience (query : string) : bool :=
  contains "demographic" (lower query) || contains "audience" (lower query).

(** The dictionary [_market_intelligence_analysis] serialises. *)
Definition market_intelligence (query : string) : list (string * json) :=
  let data1 :=
    if asks_cost query then set "cost_insights" cost_insights market_data
    else market_data in
  if asks_audience query then set "audience_insights" audience_insights data1 else data1.

(** [_market_intelligence_analysis] *)
Definition _market_intelligence_analysis (query : string) : string :=
  dumps_indent 2 0 (JDict (market_intelligence query)).

(** A retrieval collaborator: asked with a text it raises or returns
    texts (the [page_content] of the documents, the [str] of the result
    rows); [None] stands for a collaborator that was not set up. *)
Definition Collaborator : Type := option (string -> exn + list string).

(** [sparql_generator.generate_sparql(text, domain=...)]: it raises or
    returns the query text. *)
Definition Generator : Type := option (string -> string -> exn + string).

(** [_rag_search] *)
Definition _rag_search (retriever : Collaborator) (query : string) : string :=
  match retriever with
  | None => "RAG retrieval not available"
  | Some get_relevant_documents =>
      match get_relevant_documents query with
      | inl e => "RAG search error: " +:+ str_of_exn e
      | inr [] => "No relevant marketing information found"
      | inr docs => join (newline +:+ newline) (take 3 docs)
      end
  end.

(** [_sparql_query] *)
Definition _sparql_query (rdf_kb : Collaborator) (sparql_generator : Generator)
           (natural_language_query : string) : string :=
  match rdf_kb, sparql_generator with
  | Some query_kb, Some generate_sparql =>
      match generate_sparql natural_language_query "marketing" with
      | inl e => "SPARQL query error: " +:+ str_of_exn e
      | inr sparql_query =>
          match query_kb sparql_query with
          | inl e => "SPARQL query error: " +:+ str_of_exn e
          | inr [] => "No results found in structured knowledge base"
          | inr results =>
              "SPARQL Query: " +:+ sparql_query +:+ newline +:+ newline
                +:+ "Results:" +:+ newline +:+ join newline (take 5 results)
          end
      end
  | _, _ => "RDF knowledge base not available"
  end.

(** A [Tool] of the agent: its name, its description and its function. *)
Record Tool : Type := {
  name : string;
  description : string;
  func : string -> string
}.

(** [_initialize_tools]: the four table-driven tools, then the two
    retrieval tools for the collaborators that were set up. *)
Definition _initialize_tools (retriever rdf_kb : Collaborator) (sparql_generator : Generator)
  : list Tool :=
  [ {| name := "platform_compliance_check";
       description := "Check marketing content compliance for specific platforms";
       func := Tools._check_platform_compliance |};
    {| name := "creative_strategy_generator";
       description := "Generate compliant creative strategies for cannabis marketing";
       func := _generate_creative_strategy |};
    {| name := "market_intelligence";
       description := "Analyze market data, CPC estimates, and audience insights";
       func := _market_intelligence_analysis |};
    {| name := "n8n_workflow_simulator";
       description := "Simulate N8N marketing automation workflows";
       func := Tools._simulate_n8n_workflow |} ]
  ++ match retriever with
     | Some _ =>
         [ {| name := "marketing_knowledge_search";
              description :=
                "Search marketing knowledge base for strategies and case studies";
              func := _rag_search retriever |} ]
     | None => []
     end
  ++ match rdf_kb, sparql_generator with
     | Some _, Some _ =>
         [ {| name := "structured_marketing_query";
              description :=
                "Query structured marketing knowledge using natural language";
              func := _sparql_query rdf_kb sparql_generator |} ]
     | _, _ => []
     end.

End Adapters.

(** ** More vocabulary *)

(** The entry [run_baseline_test] appends for a record with the
    question [text] that [process_query] answered with [answer]. *)
Definition scored_entry (q : Question) (text answer : string) : BaselineEntry :=
  let evaluation := Scoring._evaluate_baseline_response q answer in
  {| entry_question_id := default "unknown" (id q);
     entry_question := text;
     entry_expected := Some (default EmptyString (expected_answer q));
     entry_actual := Some answer;
     entry_error := None;
     entry_passed := eval_passed evaluation;
     entry_confidence := eval_confidence evaluation;
     entry_evaluation := Some evaluation |}.

(** The entries of a report: for each record, its question text and
    the result [process_query] returned for it, the scored entry of that
    result's response. *)
Fixpoint report_entries (qs : list Question) (texts : list string)
         (results : list QueryResult) : list BaselineEntry :=
  match qs, texts, results with
  | q :: qs', text :: texts', result :: results' =>
      scored_entry q text (response result) :: report_entries qs' texts' results'
  | _, _, _ => []
  end.

(** The exchanges a run of baseline queries stores: one for each
    question whose result carries no error, made of the text sent and
    the response of that result. *)
Fixpoint written (texts : list string) (results : list QueryResult)
  : list (string * string) :=
  match texts, results with
  | text :: texts', result :: results' =>
      match error result with
      | None => (baseline_input text, response result) :: written texts' results'
      | Some _ => written texts' results'
      end
  | _, _ => []
  end.

(** The requests a run of baseline queries sends when [prior] is stored
    under the reserved identity: each carries [prior] and after it the
    exchanges of the earlier questions whose result carries no error. *)
Fixpoint requests_of (prior : list BaseMessage) (texts : list string)
         (results : list QueryResult) : list AgentInput :=
  match texts, results with
  | text :: texts', result :: results' =>
      {| input := baseline_input text; chat_history := prior |}
      :: requests_of
           (match error result with
            | None => prior ++ [HumanMessage (baseline_input text);
                                AIMessage (response result)]
            | Some _ => prior
            end) texts' results'
  | _, _ => []
  end.

Section Traces.
Context {World : Type}.
Variable agent_executor_invoke : World -> AgentInput -> (exn + AgentOutput) * World.
Variable datetime_now : World -> string * World.

(** The queries of a baseline run: [process_query] called under the
    reserved identity for each question text in turn, each call
    starting in the state the one before left. The results, oldest
    first, and the state after the last. *)
Fixpoint baseline_queries (texts : list string) (st : @State World)
  : list QueryResult * @State World :=
  match texts with
  | [] => ([], st)
  | text :: rest =>
      match process_query agent_executor_invoke datetime_now
              "baseline_test" text test_mode st with
      | (Return result, st1) =>
          let '(results, st2) := baseline_queries rest st1 in (result :: results, st2)
      | (Raise _, st1) => ([], st1)
      end
  end.

End Traces.

(** The exchanges the reader returns for a limit: the last [limit] for
    a positive limit, all but the first [-limit] otherwise. *)
Definition window (limit : Z) (exchanges : list (string * string))
  : list (string * string) :=
  if (0 <? limit)%Z then drop (length exchanges - Z.to_nat limit) exchanges
  else drop (Z.to_nat (- limit)) exchanges.

(** ** More sample inputs *)

Module MoreSamples.
Import Script Samples.

Definition weedmaps_text : string := "weedmaps:check out our new indica strain".

Definition weedmaps_result : list (string * Json.json) :=
  match Tools.compliance_result weedmaps_text with
  | inr result => result
  | inl _ => []
  end.

(** A collaborator that returns six texts whatever it is asked. *)
Definition six_texts (text : string) : exn + list string :=
  inr (numbered "text " 6).

Definition generate_select (text domain : string) : exn + string :=
  inr ("SELECT " +:+ domain).

Definition keyword_free_question : Question :=
  {| id := None; question := Some "Where do we advertise?";
     expected_answer := None; keywords := None |}.


(** 560 characters with all six domain terms and no keyword of
    [sample_question]. *)
Definition jargon_response : string :=
  repeat_text 10 "platform compliance strategy campaign audience creative ".

(** An agent with seven questions on which a user already talked, and
    one on which that user is called [baseline_test]. *)
Definition busy : State :=
  run_calls invoke now [CallQuery "u" "hello" None]
    (start (says "hi" :: map says (numbered "answer " 7)) seven_questions).

Definition squatted : State :=
  run_calls invoke now [CallQuery "baseline_test" "hello" None]
    (start (says "hi" :: map says (numbered "answer " 7)) seven_questions).

(** A context [json.dumps] cannot encode: its second value is a
    [datetime]. *)
Definition dated : option (list (string * PyObj.pyobj)) :=
  Some [("test_mode", PyObj.PBool true); ("at", PyObj.PInstance "datetime")].

(** Three records the second of which has no ["question"], and an agent
    that has loaded them and will answer. *)
Definition first_record : Question :=
  {| id := Some "g1"; question := Some "Which platform first?";
     expected_answer := None; keywords := Some ["platform"] |}.

Definition gap_record : Question :=
  {| id := Some "g2"; question := None;
     expected_answer := Some "none"; keywords := None |}.

Definition last_record : Question :=
  {| id := Some "g3"; question := Some "Which audience next?";
     expected_answer := None; keywords := None |}.

Definition gapped_questions : list Question := [first_record; gap_record; last_record].

Definition gapped : State := start (map says (numbered "answer " 3)) gapped_questions.

End MoreSamples.

(** * Properties *)

(** ** Tool adapters *)

Section ToolFacts.
Import PyStr Json Tools.

(** C5: on the input [facebook:our cannabis dispensary has the best thc
    products] the compliance checker answers with the serialised
    dictionary whose [allowed] is false and whose [violations] list is
    not empty and holds the cannabis-content violation. *)
Theorem C5_facebook_cannabis_content_violation :
  let text := "facebook:our cannabis dispensary has the best thc products" in
  exists result violations,
    compliance_result text = inr result /\
    _check_platform_compliance text = dumps_indent 2 0 (JDict result) /\
    get "allowed" result = Some (JBool false) /\
    get "violations" result = Some (strs violations) /\
    violations <> [] /\
    In "Contains cannabis-related content" violations.
Proof.
  cbv zeta. eexists. exists ["Contains cannabis-related content"].
  split; [vm_compute; reflexivity|].
  repeat split; try reflexivity; try discriminate.
  now left.
Qed.

(** The three dictionaries the workflow simulator can end with. *)
Lemma workflow_bundles_distinct :
  update empty_workflow campaign_optimization_bundle
    <> update empty_workflow content_approval_bundle /\
  update empty_workflow campaign_optimization_bundle
    <> update empty_workflow generic_bundle.
Proof. split; vm_compute; discriminate. Qed.

(** C6, as the claim states it, fails: [optimize campaign spend] does not
    yield the bundle named Campaign Performance Optimization. *)
Lemma C6_optimize_campaign_spend_is_not_campaign_bundle :
  ~ (workflow_simulation "optimize campaign spend"
       = update empty_workflow campaign_optimization_bundle
     \/ get "workflow_name" (workflow_simulation "optimize campaign spend")
          = Some (JStr "Campaign Performance Optimization")).
Proof. vm_compute. intros [H | H]; discriminate H. Qed.

(** C6, amended: [optimize campaign spend] yields the generic fallback
    bundle, named Generic Marketing Automation, because its lower-cased
    text lacks the substring [optimization]; an input yields the
    campaign-optimization bundle exactly when its lower-cased text holds
    both [campaign] and [optimization] and does not hold both [content]
    and [approval]. *)
Theorem C6_campaign_bundle_needs_optimization :
  workflow_simulation "optimize campaign spend" = update empty_workflow generic_bundle /\
  get "workflow_name" (workflow_simulation "optimize campaign spend")
    = Some (JStr "Generic Marketing Automation") /\
  contains "optimization" (lower "optimize campaign spend") = false /\
  forall description : string,
    workflow_simulation description = update empty_workflow campaign_optimization_bundle
    <-> (contains "campaign" (lower description) = true /\
         contains "optimization" (lower description) = true /\
         ~ (contains "content" (lower description) = true /\
            contains "approval" (lower description) = true)).
Proof.
  split; [reflexivity|]. split; [reflexivity|]. split; [reflexivity|].
  intros description. unfold workflow_simulation.
  destruct (contains "content" (lower description)) eqn:Ec;
    destruct (contains "approval" (lower description)) eqn:Ea;
    destruct (contains "campaign" (lower description)) eqn:Eg;
    destruct (contains "optimization" (lower description)) eqn:Eo;
    cbn [andb];
    (split;
     [ intros H; try (symmetry in H; apply workflow_bundles_distinct in H; contradiction);
       repeat split; try reflexivity; intros [? ?]; discriminate
     | intros (H1 & H2 & H3); try discriminate; try reflexivity;
       exfalso; apply H3; split; reflexivity ]).
Qed.

End ToolFacts.

(** ** Rounding to binary64 *)

(** What the scoring proof needs of [Float64.round]: it fixes 1, it
    never takes a value at or above 1 below 1, and its results are in
    lowest terms. *)
Module Float64Facts.
Import Float64.

Lemma rne_ge_floor n d : (0 < d)%Z -> (n / d <= rne n d)%Z.
Proof.
  intros _. unfold rne.
  destruct (2 * (n mod d) ?= d)%Z; [destruct (Z.even _)|..]; lia.
Qed.

Lemma ulp_exp_ge a b :
  (0 < b <= a)%Z ->
  (-52 <= ulp_exp a b)%Z /\
  (2 ^ 52 <= fst (scaled a b (ulp_exp a b)) / snd (scaled a b (ulp_exp a b)))%Z.
Proof.
  intros [Hb Hab]. unfold ulp_exp.
  assert (Hl : (Z.log2 b <= Z.log2 a)%Z) by (apply Z.log2_le_mono; lia).
  destruct (Z.log2_spec a) as [Ha1 Ha2]; [lia|].
  destruct (Z.log2_spec b) as [Hb1 Hb2]; [lia|].
  pose proof (Z.log2_nonneg b) as Hlb.
  set (la := Z.log2 a) in *. set (lb := Z.log2 b) in *.
  set (e0 := (la - lb - 52)%Z).
  destruct (scaled a b e0) as [n0 d0] eqn:E0.
  destruct (2 ^ 52 <=? n0 / d0)%Z eqn:T.
  - apply Z.leb_le in T. rewrite Z.max_l by lia. rewrite E0. simpl. lia.
  - apply Z.leb_gt in T.
    assert (He0 : (-51 <= e0)%Z).
    { destruct (Z.eq_dec e0 (-52)%Z) as [E|E]; [|lia].
      exfalso. rewrite E in E0. unfold scaled in E0. simpl in E0.
      inversion E0; subst n0 d0.
      change (- (-52))%Z with 52%Z in T.
      assert (2 ^ 52 <= a * 2 ^ 52 / b)%Z; [|lia].
      apply Z.div_le_lower_bound; lia. }
    rewrite Z.max_l by lia. split; [lia|].
    unfold scaled. destruct (0 <=? e0 - 1)%Z eqn:S; simpl.
    + apply Z.leb_le in S.
      apply Z.div_le_lower_bound.
      * apply Z.mul_pos_pos; [lia|]. apply Z.pow_pos_nonneg; lia.
      * replace la with (Z.succ lb + (e0 - 1) + 52)%Z in Ha1 by lia.
        rewrite Z.pow_add_r, Z.pow_add_r in Ha1 by lia.
        assert (0 < 2 ^ (e0 - 1))%Z by (apply Z.pow_pos_nonneg; lia).
        etransitivity; [|exact Ha1].
        apply Z.mul_le_mono_nonneg_r; [lia|].
        apply Z.mul_le_mono_nonneg_r; lia.
    + apply Z.leb_gt in S.
      apply Z.div_le_lower_bound; [lia|].
      assert (E : (2 ^ la * 2 ^ (- (e0 - 1)) = 2 ^ (lb + 1) * 2 ^ 52)%Z).
      { rewrite <- !Z.pow_add_r by lia. f_equal. lia. }
      assert (0 < 2 ^ (- (e0 - 1)))%Z by (apply Z.pow_pos_nonneg; lia).
      replace (Z.succ lb) with (lb + 1)%Z in Hb2 by lia.
      transitivity (2 ^ (lb + 1) * 2 ^ 52)%Z.
      * apply Z.mul_le_mono_nonneg_r; lia.
      * rewrite <- E. apply Z.mul_le_mono_nonneg_r; lia.
Qed.

Lemma round_pos_ge_1 a b : (0 < b <= a)%Z -> (1 <= round_pos a b)%Q.
Proof.
  intros H. unfold round_pos.
  destruct (ulp_exp_ge a b H) as [He Hm].
  destruct (scaled a b (ulp_exp a b)) as [n d] eqn:E. simpl in Hm.
  rewrite Qred_correct.
  assert (Hd : (0 < d)%Z).
  { unfold scaled in E. destruct (0 <=? ulp_exp a b)%Z eqn:S; inversion E; subst.
    - apply Z.leb_le in S. apply Z.mul_pos_pos; [lia|]. apply Z.pow_pos_nonneg; lia.
    - lia. }
  pose proof (rne_ge_floor n d Hd) as Hr.
  set (m := rne n d) in *. set (e := ulp_exp a b) in *.
  unfold pow2. destruct (0 <=? e)%Z eqn:S.
  - apply Z.leb_le in S. rewrite <- inject_Z_mult.
    change 1%Q with (inject_Z 1). rewrite <- Zle_Qle.
    assert (0 < 2 ^ e)%Z by (apply Z.pow_pos_nonneg; lia).
    change 1%Z with (1 * 1)%Z. apply Z.mul_le_mono_nonneg; lia.
  - apply Z.leb_gt in S.
    assert (Hp : (0 < 2 ^ (- e))%Z) by (apply Z.pow_pos_nonneg; lia).
    assert (Hq : (2 ^ (- e) <= 2 ^ 52)%Z) by (apply Z.pow_le_mono_r; lia).
    unfold Qle. simpl. rewrite Pos.mul_1_l, Z2Pos.id by lia. lia.
Qed.

Lemma round_ge_1 q : (1 <= q)%Q -> (1 <= round q)%Q.
Proof.
  intros H. unfold round. rewrite <- (Qred_correct q) in H.
  destruct (Qred q) as [rn rd]. unfold Qle in H. simpl in *.
  destruct rn as [|a|a]; try lia.
  apply round_pos_ge_1. lia.
Qed.

Lemma Qred_idem q : Qred (Qred q) = Qred q.
Proof. apply Qred_complete, Qred_correct. Qed.

Lemma round_reduced q : Qred (round q) = round q.
Proof.
  unfold round. destruct (Qnum (Qred q)); [reflexivity| |]; unfold round_pos.
  - destruct (scaled _ _ _). apply Qred_idem.
  - apply Qred_idem.
Qed.


Lemma truediv_ge_1 a b : (0 < b <= a)%Z -> (1 <= truediv a b)%Q.
Proof.
  intros H. apply round_ge_1. unfold Qle. simpl. rewrite Z2Pos.id; lia.
Qed.

Lemma min_one x : (1 <= x)%Q -> Qred x = x -> min x (literal 1 0) = 1%Q.
Proof.
  intros H R. change (literal 1 0) with 1%Q. unfold min, ltb.
  destruct (1 ?= x)%Q eqn:C; try reflexivity.
  - apply Qeq_alt in C. rewrite <- R. symmetry. now apply Qred_complete in C.
  - apply Qgt_alt in C. exfalso. apply (Qlt_not_le _ _ C H).
Qed.

(** The model agrees with the processor's binary64 arithmetic on the
    constants of the program and on the scores of a response that holds
    every keyword, is long enough and holds one to six domain terms. *)
Example literals_agree_with_hardware :
  literal 4 1 = of_prim (hardware_quotient 4 10) /\
  literal 2 1 = of_prim (hardware_quotient 2 10) /\
  literal 6 1 = of_prim (hardware_quotient 6 10) /\
  literal 5 1 = of_prim (hardware_quotient 5 10) /\
  literal 85 2 = of_prim (hardware_quotient 85 100).
Proof. repeat split; vm_compute; reflexivity. Qed.

Example overall_agrees_with_hardware :
  Forall (fun c : Z * PrimInt63.int =>
            Scoring.overall_score_of 1%Q (truediv (fst c) 6) 1%Q
            = of_prim (hardware_overall (hardware_quotient 1 1)
                                        (hardware_quotient (snd c) 6)
                                        (hardware_quotient 1 1)))
         [(1%Z, 1%uint63); (2%Z, 2%uint63); (3%Z, 3%uint63);
          (4%Z, 4%uint63); (5%Z, 5%uint63); (6%Z, 6%uint63)].
Proof. repeat constructor; vm_compute; reflexivity. Qed.

Example quotients_agree_with_hardware :
  truediv 123456789 200 = of_prim (hardware_quotient 123456789 200) /\
  truediv 199 200 = of_prim (hardware_quotient 199 200) /\
  truediv 2 3 = of_prim (hardware_quotient 2 3).
Proof. repeat split; vm_compute; reflexivity. Qed.

End Float64Facts.

(** ** Scoring *)

Module ScoringFacts.
Import PyStr PyList Scoring Samples.




Lemma count_where_le {A : Type} (p : A -> bool) (l : list A) :
  count_where p l <= length l.
Proof. induction l as [|x l IH]; simpl; [lia|]. destruct (p x); lia. Qed.





End ScoringFacts.

(** ** The agent's methods, equationally *)

Section AgentFacts.
Context {World : Type}.
Variable agent_executor_invoke : World -> AgentInput -> (exn + AgentOutput) * World.
Variable datetime_now : World -> string * World.

Abbreviation state := (@State World).
Abbreviation process := (process_query agent_executor_invoke datetime_now).
Abbreviation history := (get_user_conversation_history datetime_now).
Abbreviation baseline := (run_baseline_test agent_executor_invoke datetime_now).
Abbreviation step := (baseline_step agent_executor_invoke datetime_now).
Abbreviation queries := (baseline_queries agent_executor_invoke datetime_now).

Lemma messages_of_store (st : state) u : messages_of st u = store_messages (memory_store st) u.
Proof. reflexivity. Qed.

Lemma store_messages_ensure store u u' :
  store_messages (ensure u store) u' = store_messages store u'.
Proof.
  unfold ensure, store_messages. destruct (store !! u) eqn:E; [reflexivity|].
  destruct (decide (u = u')) as [<-|Hne].
  - now rewrite lookup_insert_eq, E.
  - now rewrite lookup_insert_ne.
Qed.

Lemma store_messages_alter store u u' msg :
  is_Some (store !! u) ->
  store_messages (alter (add_message msg) u store) u'
  = if decide (u = u') then store_messages store u' ++ [msg] else store_messages store u'.
Proof.
  intros [m Hm]. unfold store_messages. rewrite lookup_alter.
  destruct (decide (u = u')) as [<-|Hne]; [|reflexivity].
  rewrite Hm. reflexivity.
Qed.

Lemma ensure_is_Some store u : is_Some (ensure u store !! u).
Proof.
  unfold ensure. destruct (store !! u) eqn:E.
  - rewrite E. eauto.
  - rewrite lookup_insert_eq. eauto.
Qed.

Lemma store_messages_record store u text answer u' :
  store_messages (record_exchange u text answer store) u'
  = if decide (u = u')
    then store_messages store u' ++ [HumanMessage text; AIMessage answer]
    else store_messages store u'.
Proof.
  unfold record_exchange.
  rewrite store_messages_alter.
  2:{ rewrite lookup_alter. rewrite decide_True by reflexivity.
      destruct (ensure_is_Some store u) as [m ->]. simpl. eauto. }
  rewrite store_messages_alter by apply ensure_is_Some.
  rewrite store_messages_ensure.
  destruct (decide (u = u')); [|reflexivity].
  now rewrite <- app_assoc.
Qed.

(** What [process_query] does, case by case on the context and on the
    answer of the reasoning service. *)
Lemma process_query_eq (st : state) user query context :
  process user query context st
  = match with_context query context with
    | inr text =>
        let request := {| input := text; chat_history := messages_of st user |} in
        let answer := agent_executor_invoke (world st) request in
        let clock := datetime_now (snd answer) in
        match fst answer with
        | inr out =>
            (Return {| response := output out;
                       result_steps := Some (default [] (intermediate_steps out));
                       error := None;
                       confidence := Float64.literal 85 2;
                       timestamp := fst clock;
                       user_id := user |},
             {| world := snd clock;
                memory_store := record_exchange user text (output out) (memory_store st);
                baseline_questions := baseline_questions st;
                invoked := invoked st ++ [request] |})
        | inl e =>
            (Return {| response := "I encountered an error processing your marketing query: "
                                     +:+ str_of_exn e;
                       result_steps := None;
                       error := Some (str_of_exn e);
                       confidence := Float64.literal 0 1;
                       timestamp := fst clock;
                       user_id := user |},
             {| world := snd clock;
                memory_store := ensure user (memory_store st);
                baseline_questions := baseline_questions st;
                invoked := invoked st ++ [request] |})
        end
    | inl e =>
        let clock := datetime_now (world st) in
        (Return {| response := "I encountered an error processing your marketing query: "
                                 +:+ str_of_exn e;
                   result_steps := None;
                   error := Some (str_of_exn e);
                   confidence := Float64.literal 0 1;
                   timestamp := fst clock;
                   user_id := user |},
         {| world := snd clock;
            memory_store := ensure user (memory_store st);
            baseline_questions := baseline_questions st;
            invoked := invoked st |})
    end.
Proof.
  cbv zeta.
  unfold process_query, try_except, bind, _get_user_memory, lift, invoke,
    add_to_memory, now_isoformat, ret, record_exchange, ensure, messages_of.
  destruct st as [w store qs inv]. cbn [world memory_store baseline_questions invoked].
  destruct (store !! user) as [memory|] eqn:E;
    cbn [world memory_store baseline_questions invoked with_store with_world chat_memory new_memory];
    (destruct (with_context query context) as [e0|text];
     cbn [world memory_store baseline_questions invoked with_store with_world];
     [ destruct (datetime_now w) as [t w2]; reflexivity | ]);
    destruct (agent_executor_invoke w _) as [[e|out] w1];
    cbn [fst snd world memory_store baseline_questions invoked with_store with_world];
    destruct (datetime_now w1) as [t w2]; reflexivity.
Qed.

(** *** The history reader *)

Lemma twice_div2_succ n : n <= 2 * Nat.div2 (S n).
Proof.
  pose proof (Nat.div2_odd (S n)) as H.
  destruct (Nat.odd (S n)); simpl Nat.b2n in H; lia.
Qed.

Lemma slice_from_zero {A : Type} (l : list A) : PyList.slice_from 0 l = l.
Proof. unfold PyList.slice_from. simpl. now rewrite Z.min_l by lia. Qed.

(** A negative start keeps the last [-start] elements. *)
Lemma slice_from_neg {A : Type} (n : Z) (l : list A) :
  (0 < n)%Z -> PyList.slice_from (- n) l = drop (length l - Z.to_nat n) l.
Proof.
  intros H. unfold PyList.slice_from.
  replace (- n <? 0)%Z with true by (symmetry; apply Z.ltb_lt; lia).
  f_equal. lia.
Qed.

(** The loop of [get_user_conversation_history], run from pair [s] on
    for [cnt] turns: it appends the pairs it meets and touches nothing
    but the clock. *)
Lemma history_loop (messages : list BaseMessage) cnt :
  forall s (acc : list HistoryEntry) (st : state),
  exists h st',
    for_each (map (fun j => 2 * j) (seq s cnt)) acc
      (fun history i =>
         match messages !! i, messages !! (i + 1) with
         | Some m, Some m' =>
             bind (now_isoformat datetime_now)
               (fun now => ret (history ++ [ {| user_message := content m;
                                                agent_response := content m';
                                                history_timestamp := now |} ]))
         | _, _ => ret history
         end) st = (Return h, st') /\
    memory_store st' = memory_store st /\
    baseline_questions st' = baseline_questions st /\
    invoked st' = invoked st /\
    map exchange_of h = map exchange_of acc ++ pair_up (take (2 * cnt) (drop (2 * s) messages)).
Proof.
  set (body := fun (history : list HistoryEntry) (i : nat) => _).
  induction cnt as [|cnt IH]; intros s acc st.
  - exists acc, st. simpl. unfold ret. now rewrite app_nil_r.
  - cbn [seq map for_each]. unfold bind at 1.
    replace (2 * S cnt) with (S (S (2 * cnt))) by lia.
    destruct (messages !! (2 * s)) as [m|] eqn:E1.
    + destruct (messages !! (2 * s + 1)) as [m'|] eqn:E2.
      * destruct (datetime_now (world st)) as [t w] eqn:Ew.
        assert (Hb : body acc (2 * s) st
                     = (Return (acc ++ [ {| user_message := content m;
                                            agent_response := content m';
                                            history_timestamp := t |} ]),
                        with_world w st)).
        { unfold body. rewrite E1, E2. unfold bind, now_isoformat, ret.
          now rewrite Ew. }
        rewrite Hb.
        destruct (IH (S s) (acc ++ [ {| user_message := content m;
                                        agent_response := content m';
                                        history_timestamp := t |} ]) (with_world w st))
          as (h & st' & Hrun & Hs & Hq & Hi & Hx).
        exists h, st'. rewrite Hrun. repeat split; auto.
        rewrite Hx, map_app, <- app_assoc. f_equal.
        rewrite (drop_S _ m (2 * s)) by exact E1.
        rewrite (drop_S _ m' (S (2 * s))) by (now replace (S (2 * s)) with (2 * s + 1) by lia).
        replace (S (S (2 * s))) with (2 * S s) by lia. reflexivity.
      * assert (Hb : body acc (2 * s) st = (Return acc, st)).
        { unfold body. now rewrite E1, E2. }
        rewrite Hb.
        destruct (IH (S s) acc st) as (h & st' & Hrun & Hs & Hq & Hi & Hx).
        exists h, st'. rewrite Hrun. repeat split; auto.
        rewrite Hx. f_equal.
        apply lookup_ge_None in E2.
        rewrite (drop_S _ m (2 * s)) by exact E1.
        rewrite (drop_ge messages (S (2 * s))) by lia.
        rewrite (drop_ge messages (2 * S s)) by lia.
        now rewrite take_nil.
    + assert (Hb : body acc (2 * s) st = (Return acc, st)).
      { unfold body. now rewrite E1. }
      rewrite Hb.
      destruct (IH (S s) acc st) as (h & st' & Hrun & Hs & Hq & Hi & Hx).
      exists h, st'. rewrite Hrun. repeat split; auto.
      rewrite Hx. f_equal.
      apply lookup_ge_None in E1.
      rewrite (drop_ge messages (2 * s)) by lia.
      rewrite (drop_ge messages (2 * S s)) by lia.
      now rewrite !take_nil.
Qed.

(** [get_user_conversation_history] returns, changes nothing but the
    clock, and yields the pairs of the sliced message list in order. *)
Lemma history_eq (st : state) user limit :
  exists h st',
    history user limit st = (Return h, st') /\
    memory_store st' = memory_store st /\
    baseline_questions st' = baseline_questions st /\
    invoked st' = invoked st /\
    map exchange_of h = pair_up (PyList.slice_from (- limit * 2) (messages_of st user)).
Proof.
  unfold get_user_conversation_history, messages_of.
  destruct (memory_store st !! user) as [memory|] eqn:E.
  - set (messages := PyList.slice_from (- limit * 2) (chat_memory memory)).
    destruct (history_loop messages (Nat.div2 (S (length messages))) 0 [] st)
      as (h & st' & Hrun & Hs & Hq & Hi & Hx).
    exists h, st'. unfold PyList.range_step2. rewrite Hrun. repeat split; auto.
    rewrite Hx. simpl. rewrite take_ge; [reflexivity|].
    rewrite drop_0. apply twice_div2_succ.
  - exists [], st. repeat split; auto.
    unfold PyList.slice_from. now rewrite drop_nil.
Qed.

(** *** Pairs and turns *)

Lemma pair_up_turns xs : pair_up (turns xs) = xs.
Proof. induction xs as [|[q a] xs IH]; simpl; [reflexivity|]. now rewrite IH. Qed.

Lemma pair_up_length : forall l, length (pair_up l) = Nat.div2 (length l).
Proof.
  fix IH 1. intros [|m [|m' rest]]; simpl; [reflexivity|reflexivity|].
  f_equal. apply IH.
Qed.

Lemma turns_app xs ys : turns (xs ++ ys) = turns xs ++ turns ys.
Proof. induction xs as [|[q a] xs IH]; simpl; [reflexivity|]. now rewrite IH. Qed.

Lemma turns_length xs : length (turns xs) = 2 * length xs.
Proof. induction xs as [|[q a] xs IH]; simpl; lia. Qed.

Lemma drop_turns n xs : drop (2 * n) (turns xs) = turns (drop n xs).
Proof.
  revert xs. induction n as [|n IH]; intros xs; [reflexivity|].
  destruct xs as [|[q a] xs]; [reflexivity|].
  replace (2 * S n) with (S (S (2 * n))) by lia. simpl. apply IH.
Qed.

Lemma string_length_app (a b : string) :
  String.length (a +:+ b) = String.length a + String.length b.
Proof. induction a as [|c a IH]; simpl; [reflexivity|]. now rewrite IH. Qed.

(** With a context that is given, not empty and encoded, the text
    sent on is longer than the query, hence another text. *)
Lemma with_context_differs query item items text :
  with_context query (Some (item :: items)) = inr text -> text <> query.
Proof.
  unfold with_context. destruct (PyObj.json_dumps _) as [e|dumped]; [discriminate|].
  intros [= <-] H. apply (f_equal String.length) in H.
  rewrite !string_length_app in H. simpl in H. lia.
Qed.

(** The text of a baseline query. *)
Lemma with_context_test_mode text : with_context text test_mode = inr (baseline_input text).
Proof. reflexivity. Qed.

(** *** One query *)

(** C9: for a known user with at least one stored exchange the history
    read with limit 0 is not empty: the slice [messages[-0:]] is the
    whole list, so every stored pair is returned. *)
Theorem C9_limit_zero_returns_every_pair (st : state) user memory :
  memory_store st !! user = Some memory ->
  2 <= length (chat_memory memory) ->
  exists h st',
    history user 0 st = (Return h, st') /\
    PyList.slice_from (- 0 * 2) (chat_memory memory) = chat_memory memory /\
    map exchange_of h = pair_up (chat_memory memory) /\
    length h = Nat.div2 (length (chat_memory memory)) /\
    h <> [] /\
    (forall exchanges, chat_memory memory = turns exchanges -> map exchange_of h = exchanges).
Proof.
  intros Hm Hlen.
  destruct (history_eq st user 0) as (h & st' & Hrun & _ & _ & _ & Hx).
  unfold messages_of in Hx. rewrite Hm in Hx.
  change (- 0 * 2)%Z with 0%Z in *. rewrite slice_from_zero in Hx.
  assert (Hl : length h = Nat.div2 (length (chat_memory memory))).
  { rewrite <- pair_up_length, <- Hx. now rewrite length_map. }
  exists h, st'. repeat split; auto using slice_from_zero.
  - intros ->. simpl in Hl.
    destruct (chat_memory memory) as [|m [|m' rest]]; simpl in *; try lia. discriminate.
  - intros exchanges He. rewrite Hx, He. apply pair_up_turns.
Qed.

(** C3: when the reasoning service raises, [process_query] returns (it
    does not raise) a result with confidence 0.0, the failure text in
    [error] and an error response for the user, and every user's stored
    history is what it was, in length and in contents. *)
Theorem C3_failed_query_changes_no_history (st : state) user query context text e w :
  with_context query context = inr text ->
  agent_executor_invoke (world st)
    {| input := text; chat_history := messages_of st user |}
    = (inl e, w) ->
  exists result st',
    process user query context st = (Return result, st') /\
    confidence result = 0%Q /\
    error result = Some (str_of_exn e) /\
    response result
      = "I encountered an error processing your marketing query: " +:+ str_of_exn e /\
    (forall u, messages_of st' u = messages_of st u) /\
    (forall u, length (messages_of st' u) = length (messages_of st u)) /\
    (forall u limit h h' s s',
       history u limit st = (Return h, s) ->
       history u limit st' = (Return h', s') ->
       map exchange_of h' = map exchange_of h).
Proof.
  intros Ht H. rewrite process_query_eq, Ht. cbv zeta. rewrite H. cbn [fst snd].
  eexists. eexists. split; [reflexivity|]. cbn [confidence error response].
  assert (Hm : forall u,
             messages_of
               {| world := snd (datetime_now w);
                  memory_store := ensure user (memory_store st);
                  baseline_questions := baseline_questions st;
                  invoked := invoked st
                               ++ [ {| input := text;
                                       chat_history := messages_of st user |} ] |} u
             = messages_of st u).
  { intros u. rewrite !messages_of_store. cbn [memory_store].
    now rewrite store_messages_ensure. }
  repeat split; try reflexivity.
  - exact Hm.
  - intros u. now rewrite Hm.
  - intros u limit h h' s s' H1 H2.
    destruct (history_eq st u limit) as (h0 & s0 & Hr & _ & _ & _ & Hx).
    rewrite Hr in H1. injection H1 as <- _.
    match type of H2 with
    | get_user_conversation_history _ _ _ ?st1 = _ =>
        destruct (history_eq st1 u limit) as (h1 & s1 & Hr1 & _ & _ & _ & Hx1)
    end.
    rewrite Hr1 in H2. injection H2 as <- _.
    now rewrite Hx1, Hx, Hm.
Qed.

(** C2, amended: a successful [process_query] persists as the user turn
    the very text it sent to the reasoning service. With a context that
    is given and not empty that text is the context-augmented one,
    [Context: <json>], two line feeds, [Query: <query>], which is not the
    original query; with no context or an empty one it is the query. *)
Theorem C2_persisted_turn_is_text_sent (st : state) user query context text out w :
  with_context query context = inr text ->
  agent_executor_invoke (world st)
    {| input := text; chat_history := messages_of st user |}
    = (inr out, w) ->
  exists result st',
    process user query context st = (Return result, st') /\
    error result = None /\
    messages_of st' user
      = messages_of st user ++ [HumanMessage text; AIMessage (output out)] /\
    invoked st'
      = invoked st ++ [ {| input := text; chat_history := messages_of st user |} ] /\
    match context with
    | Some (item :: items) =>
        (exists encoded,
           PyObj.to_json (PyObj.PDict (item :: items)) = inr encoded /\
           text = "Context: " +:+ Json.dumps encoded
                    +:+ PyStr.newline +:+ PyStr.newline +:+ "Query: " +:+ query) /\
        text <> query
    | _ => text = query
    end.
Proof.
  intros Ht H. rewrite process_query_eq, Ht. cbv zeta. rewrite H. cbn [fst snd].
  eexists. eexists. split; [reflexivity|]. cbn [error invoked].
  repeat split.
  - rewrite !messages_of_store. cbn [memory_store].
    rewrite store_messages_record. now rewrite decide_True.
  - destruct context as [[|item items]|]; try (injection Ht as <-; reflexivity).
    split; [|now apply (with_context_differs query item items)].
    unfold with_context, PyObj.json_dumps in Ht.
    destruct (PyObj.to_json _) as [e|encoded]; [discriminate|].
    injection Ht as <-. now exists encoded.
Qed.

(** *** Whole exchanges *)

Lemma alternates_turns xs : alternates Human (turns xs).
Proof. induction xs as [|[q a] xs IH]; simpl; auto. Qed.

Lemma well_paired_empty : well_paired ∅.
Proof. intros u. exists []. unfold store_messages. now rewrite lookup_empty. Qed.

Lemma well_paired_ensure store u : well_paired store -> well_paired (ensure u store).
Proof. intros H u'. rewrite store_messages_ensure. apply H. Qed.

Lemma well_paired_record store u text answer :
  well_paired store -> well_paired (record_exchange u text answer store).
Proof.
  intros H u'. rewrite store_messages_record. destruct (H u') as [xs Hx].
  destruct (decide (u = u')); [|eauto].
  exists (xs ++ [(text, answer)]). now rewrite turns_app, Hx.
Qed.

Lemma store_messages_delete store u u' :
  store_messages (delete u store) u'
  = if decide (u = u') then [] else store_messages store u'.
Proof.
  unfold store_messages. destruct (decide (u = u')) as [<-|Hne].
  - now rewrite lookup_delete_eq.
  - now rewrite lookup_delete_ne.
Qed.

Lemma well_paired_delete store u : well_paired store -> well_paired (delete u store).
Proof.
  intros H u'. rewrite store_messages_delete.
  destruct (decide (u = u')); [now exists []|apply H].
Qed.

(** [process_query] never raises, leaves the question set alone, sends
    one request (none when the context cannot be encoded), keeps the
    store well paired and touches no other user's messages. *)
Lemma process_query_facts (st : state) user query context :
  exists result st',
    process user query context st = (Return result, st') /\
    baseline_questions st' = baseline_questions st /\
    invoked st'
      = invoked st
          ++ match with_context query context with
             | inr text => [ {| input := text; chat_history := messages_of st user |} ]
             | inl _ => []
             end /\
    (well_paired (memory_store st) -> well_paired (memory_store st')) /\
    (forall u, u <> user -> messages_of st' u = messages_of st u) /\
    match error result with
    | None =>
        exists text,
          with_context query context = inr text /\
          messages_of st' user
            = messages_of st user ++ [HumanMessage text; AIMessage (response result)]
    | Some _ => messages_of st' user = messages_of st user
    end.
Proof.
  rewrite process_query_eq. cbv zeta.
  destruct (with_context query context) as [e0|text].
  - eexists; eexists; (split; [reflexivity|]).
    cbn [baseline_questions invoked memory_store error response].
    split; [reflexivity|]. split; [now rewrite app_nil_r|].
    split; [apply well_paired_ensure|].
    split; intros; rewrite !messages_of_store; cbn [memory_store];
      now rewrite store_messages_ensure.
  - destruct (agent_executor_invoke _ _) as [[e|out] w]; cbn [fst snd];
      eexists; eexists; (split; [reflexivity|]);
      cbn [baseline_questions invoked memory_store error response];
      (split; [reflexivity|]); (split; [reflexivity|]).
    + split; [apply well_paired_ensure|].
      split; intros; rewrite !messages_of_store; cbn [memory_store];
        now rewrite store_messages_ensure.
    + split; [apply well_paired_record|].
      split.
      * intros u Hu. rewrite !messages_of_store. cbn [memory_store].
        rewrite store_messages_record. now rewrite decide_False by congruence.
      * exists text. split; [reflexivity|].
        rewrite !messages_of_store. cbn [memory_store].
        rewrite store_messages_record. now rewrite decide_True.
Qed.

(** *** The baseline run *)

Lemma texts_of_complete (qs : list Question) (texts : list string) :
  map question qs = map Some texts -> texts_of qs = texts.
Proof.
  revert texts. induction qs as [|q qs IH]; intros [|text texts] H; try discriminate.
  - reflexivity.
  - injection H as Hq Hrest. unfold texts_of in *. simpl. rewrite Hq. simpl.
    f_equal. now apply IH.
Qed.

Lemma texts_of_app (qs qs' : list Question) : texts_of (qs ++ qs') = texts_of qs ++ texts_of qs'.
Proof. apply omap_app. Qed.


(** A list of records is complete, or has a first record without its
    question. *)
Lemma questions_split (qs : list Question) :
  (exists texts, map question qs = map Some texts) \/
  (exists good bad rest texts,
     qs = good ++ bad :: rest /\ map question good = map Some texts /\ question bad = None).
Proof.
  induction qs as [|q qs IH].
  - left. now exists [].
  - destruct (question q) as [text|] eqn:Eq.
    + destruct IH as [[texts H]|(good & bad & rest & texts & -> & Hg & Hb)].
      * left. exists (text :: texts). cbn [map]. now rewrite Eq, H.
      * right. exists (q :: good), bad, rest, (text :: texts).
        split; [reflexivity|]. split; [cbn [map]; now rewrite Eq, Hg|exact Hb].
    + right. exists [], q, qs, []. now repeat split.
Qed.

Lemma report_entries_questions (qs : list Question) :
  forall texts results,
    length texts = length qs -> length results = length qs ->
    map entry_question (report_entries qs texts results) = texts /\
    length (report_entries qs texts results) = length qs.
Proof.
  induction qs as [|q qs IH]; intros [|text texts] [|r rs] Ht Hr; try discriminate.
  - now split.
  - cbn [report_entries map length entry_question scored_entry].
    destruct (IH texts rs) as [H1 H2]; [simpl in *; lia|simpl in *; lia|].
    now rewrite H1, H2.
Qed.

Lemma requests_of_inputs (texts : list string) :
  forall prior results,
    length results = length texts ->
    map input (requests_of prior texts results) = map baseline_input texts /\
    length (requests_of prior texts results) = length texts.
Proof.
  induction texts as [|text texts IH]; intros prior [|r rs] Hl; try discriminate.
  - now split.
  - cbn [requests_of map length input].
    match goal with
    | |- context [requests_of ?p texts rs] =>
        destruct (IH p rs) as [H1 H2]; [simpl in Hl; lia|]
    end.
    now rewrite H1, H2.
Qed.

(** The queries of a baseline run, one after the other: one result for
    each text, the requests and the exchanges stored as [requests_of]
    and [written] give them, and nothing else touched. *)
Lemma baseline_queries_facts (texts : list string) :
  forall st : state,
    length (fst (queries texts st)) = length texts /\
    baseline_questions (snd (queries texts st)) = baseline_questions st /\
    invoked (snd (queries texts st))
      = invoked st
          ++ requests_of (messages_of st "baseline_test") texts (fst (queries texts st)) /\
    (well_paired (memory_store st) -> well_paired (memory_store (snd (queries texts st)))) /\
    (forall u, u <> "baseline_test" ->
               messages_of (snd (queries texts st)) u = messages_of st u) /\
    messages_of (snd (queries texts st)) "baseline_test"
      = messages_of st "baseline_test" ++ turns (written texts (fst (queries texts st))).
Proof.
  induction texts as [|text texts IH]; intros st.
  - simpl. rewrite !app_nil_r. repeat split; auto.
  - cbn [baseline_queries].
    destruct (process_query_facts st "baseline_test" text test_mode)
      as (r & st1 & Hrun & Hq & Hi & Hw & Ho & Hm).
    rewrite Hrun. rewrite with_context_test_mode in Hi.
    specialize (IH st1). destruct (queries texts st1) as [rs st2].
    cbn [fst snd] in *. destruct IH as (Hl & Hq2 & Hi2 & Hw2 & Ho2 & Hm2).
    cbn [length requests_of written].
    split; [now rewrite Hl|]. split; [congruence|].
    assert (Hm' : messages_of st1 "baseline_test"
                  = match error r with
                    | None => messages_of st "baseline_test"
                                ++ [HumanMessage (baseline_input text);
                                    AIMessage (response r)]
                    | Some _ => messages_of st "baseline_test"
                    end).
    { destruct (error r); [exact Hm|].
      destruct Hm as (text0 & Ht & Hm). rewrite with_context_test_mode in Ht.
      injection Ht as <-. exact Hm. }
    split. { rewrite Hi2, Hi, <- app_assoc. cbn [app]. now rewrite Hm'. }
    split; [auto|].
    split. { intros u Hu. rewrite Ho2, Ho; auto. }
    rewrite Hm2, Hm'. destruct (error r); [reflexivity|].
    cbn [turns]. now rewrite <- app_assoc.
Qed.

(** One turn of the loop on a record with its question: the entry
    appended is the scored entry of the response [process_query]
    returned, be it an answer or the apology of a failed query. *)
Lemma baseline_step_complete (results : list BaselineEntry) (q : Question) text (st : state) :
  question q = Some text ->
  exists result st',
    process "baseline_test" text test_mode st = (Return result, st') /\
    step results q st = (Return (results ++ [scored_entry q text (response result)]), st').
Proof.
  intros Hq.
  destruct (process_query_facts st "baseline_test" text test_mode)
    as (result & st' & Hrun & _).
  exists result, st'. split; [exact Hrun|].
  unfold baseline_step, try_except, bind, question_text, lift. rewrite Hq, Hrun.
  reflexivity.
Qed.

(** One turn of the loop on a record without its question: the body
    raises before any query, the handler raises in its turn. *)
Lemma baseline_step_incomplete (results : list BaselineEntry) (q : Question) (st : state) :
  question q = None ->
  step results q st = (Raise (Exception "'question'"), st).
Proof.
  intros Hq. unfold baseline_step, try_except, bind, question_text, lift.
  now rewrite Hq.
Qed.

Lemma baseline_loop_complete (qs : list Question) :
  forall texts (results : list BaselineEntry) (st : state),
    map question qs = map Some texts ->
    for_each qs results step st
    = (Return (results ++ report_entries qs texts (fst (queries texts st))),
       snd (queries texts st)).
Proof.
  induction qs as [|q qs IH]; intros [|text texts] results st H; try discriminate.
  - simpl. unfold ret. now rewrite app_nil_r.
  - injection H as Hq Hrest. cbn [for_each]. unfold bind.
    destruct (baseline_step_complete results q text st Hq) as (r & st1 & Hp & Hs).
    rewrite Hs. cbn [baseline_queries]. rewrite Hp.
    rewrite (IH texts _ st1 Hrest).
    destruct (queries texts st1) as [rs st2]. cbn [fst snd report_entries].
    now rewrite <- app_assoc.
Qed.

Lemma baseline_loop_abort (good : list Question) :
  forall bad rest texts (results : list BaselineEntry) (st : state),
    map question good = map Some texts ->
    question bad = None ->
    for_each (good ++ bad :: rest) results step st
    = (Raise (Exception "'question'"), snd (queries texts st)).
Proof.
  induction good as [|q good IH]; intros bad rest [|text texts] results st H Hb;
    try discriminate.
  - cbn [app for_each]. unfold bind. now rewrite baseline_step_incomplete.
  - injection H as Hq Hrest. cbn [app for_each]. unfold bind.
    destruct (baseline_step_complete results q text st Hq) as (r & st1 & Hp & Hs).
    rewrite Hs. cbn [baseline_queries]. rewrite Hp.
    rewrite (IH bad rest texts _ st1 Hrest Hb).
    now destruct (queries texts st1) as [rs st2].
Qed.

Lemma run_baseline_empty (st : state) question_id :
  baseline_questions st = [] ->
  baseline question_id st = (Return (BaselineError "No baseline questions available"), st).
Proof. intros H. unfold run_baseline_test. now rewrite H. Qed.

(** A run over records that all have their question: the report on
    the queries made one after the other, and the store without the
    reserved identity. *)
Lemma run_baseline_complete (st : state) question_id texts :
  baseline_questions st <> [] ->
  map question (selected question_id (baseline_questions st)) = map Some texts ->
  let results :=
    report_entries (selected question_id (baseline_questions st)) texts
                   (fst (queries texts st)) in
  let st1 := snd (queries texts st) in
  baseline question_id st
  = (Return (BaselineReport "marketing" (length results)
               (PyList.count_where entry_passed results)
               (average_confidence_of results) results
               (fst (datetime_now (world st1)))),
     {| world := snd (datetime_now (world st1));
        memory_store := delete "baseline_test" (memory_store st1);
        baseline_questions := baseline_questions st1;
        invoked := invoked st1 |}).
Proof.
  intros Hne Ht. cbv zeta. unfold run_baseline_test.
  destruct (baseline_questions st) as [|q0 qs0] eqn:Eq; [congruence|].
  unfold bind at 1. rewrite (baseline_loop_complete _ texts [] st Ht). cbn [app].
  unfold bind, clear_user_memory, now_isoformat, ret.
  cbn [world with_store with_world memory_store baseline_questions invoked].
  now destruct (datetime_now (world (snd (queries texts st)))) as [t w].
Qed.

(** A run that meets a record without its question: it raises the
    [KeyError] where the queries of the records before it left the
    agent, the reserved identity not cleared. *)
Lemma run_baseline_abort (st : state) question_id good bad rest texts :
  baseline_questions st <> [] ->
  selected question_id (baseline_questions st) = good ++ bad :: rest ->
  map question good = map Some texts ->
  question bad = None ->
  baseline question_id st = (Raise (Exception "'question'"), snd (queries texts st)).
Proof.
  intros Hne Hs Hg Hb. unfold run_baseline_test.
  destruct (baseline_questions st) as [|q0 qs0] eqn:Eq; [congruence|].
  unfold bind at 1. rewrite Hs.
  now rewrite (baseline_loop_abort good bad rest texts [] st Hg Hb).
Qed.

(** What every run leaves alone, whether it returns or raises. *)
Lemma run_baseline_frame (st : state) question_id :
  baseline_questions (snd (baseline question_id st)) = baseline_questions st /\
  (well_paired (memory_store st) ->
   well_paired (memory_store (snd (baseline question_id st)))) /\
  (forall u, u <> "baseline_test" ->
             messages_of (snd (baseline question_id st)) u = messages_of st u) /\
  exists requests,
    invoked (snd (baseline question_id st)) = invoked st ++ requests /\
    length requests <= length (selected question_id (baseline_questions st)) /\
    map input requests
      `prefix_of` map baseline_input
                    (texts_of (selected question_id (baseline_questions st))).
Proof.
  destruct (baseline_questions st) as [|q0 qs0] eqn:Eq.
  - rewrite run_baseline_empty by exact Eq. cbn [snd].
    repeat split; auto. exists []. rewrite app_nil_r.
    repeat split; [simpl; lia|apply prefix_nil].
  - assert (Hne : baseline_questions st <> []) by congruence. rewrite <- Eq.
    destruct (questions_split (selected question_id (baseline_questions st)))
      as [[texts Ht]|(good & bad & rest & texts & Hs & Hg & Hb)].
    + rewrite (run_baseline_complete st question_id texts Hne Ht). cbv zeta. cbn [snd].
      destruct (baseline_queries_facts texts st) as (Hl & Hq & Hi & Hw & Ho & _).
      cbn [baseline_questions memory_store invoked].
      split; [exact Hq|].
      split; [intros H; apply well_paired_delete; auto|].
      split.
      { intros u Hu. rewrite <- Ho by exact Hu. rewrite !messages_of_store.
        cbn [memory_store]. rewrite store_messages_delete.
        now rewrite decide_False by congruence. }
      eexists. split; [exact Hi|].
      destruct (requests_of_inputs texts (messages_of st "baseline_test") _ Hl) as [H1 H2].
      rewrite H1, H2, (texts_of_complete _ _ Ht).
      split; [|reflexivity].
      rewrite <- (length_map question), Ht, length_map. lia.
    + rewrite (run_baseline_abort st question_id good bad rest texts Hne Hs Hg Hb).
      cbn [snd].
      destruct (baseline_queries_facts texts st) as (Hl & Hq & Hi & Hw & Ho & _).
      split; [exact Hq|]. split; [exact Hw|]. split; [exact Ho|].
      eexists. split; [exact Hi|].
      destruct (requests_of_inputs texts (messages_of st "baseline_test") _ Hl) as [H1 H2].
      rewrite H1, H2, Hs, texts_of_app, (texts_of_complete _ _ Hg).
      split; [|rewrite map_app; apply prefix_app_r; reflexivity].
      rewrite length_app, <- (length_map question good), Hg, length_map. lia.
Qed.

Lemma history_unknown (st : state) user limit :
  memory_store st !! user = None -> history user limit st = (Return [], st).
Proof. intros H. unfold get_user_conversation_history. now rewrite H. Qed.




(** *** Sequences of calls *)

Abbreviation run_one := (run_call agent_executor_invoke datetime_now).
Abbreviation run_all := (run_calls agent_executor_invoke datetime_now).

Lemma run_call_well_paired (c : Call) (st : state) :
  well_paired (memory_store st) -> well_paired (memory_store (run_one c st)).
Proof.
  intros H. destruct c as [user query context|user limit|user|question_id];
    unfold run_call.
  - destruct (process_query_facts st user query context)
      as (result & st' & Hrun & _ & _ & Hw & _).
    rewrite Hrun. auto.
  - destruct (history_eq st user limit) as (h & st' & Hrun & Hs & _).
    rewrite Hrun. simpl. now rewrite Hs.
  - simpl. now apply well_paired_delete.
  - now apply run_baseline_frame.
Qed.

Lemma run_calls_well_paired (calls : list Call) :
  forall st : state,
    well_paired (memory_store st) -> well_paired (memory_store (run_all calls st)).
Proof.
  induction calls as [|c calls IH]; intros st H; [exact H|].
  simpl. apply IH. now apply run_call_well_paired.
Qed.

(** C4: whatever calls are made, one after the other, on a new agent,
    every user's stored messages alternate between user and agent turns
    starting with a user turn and come in whole exchanges; and one
    [process_query] either appends exactly the user turn followed by
    the agent turn of its answer, or, when it reports an error, appends
    nothing. *)
Theorem C4_stored_messages_alternate_in_whole_exchanges :
  (forall (w : World) (questions : list Question) (calls : list Call) (user : string),
     let st := run_all calls (init w questions) in
     alternates Human (messages_of st user) /\
     Nat.Even (length (messages_of st user)) /\
     exists exchanges, messages_of st user = turns exchanges) /\
  (forall (st : state) (user query : string) context,
     exists result st',
       process user query context st = (Return result, st') /\
       match error result with
       | None =>
           exists text,
             with_context query context = inr text /\
             messages_of st' user
               = messages_of st user ++ [HumanMessage text; AIMessage (response result)]
       | Some _ => messages_of st' user = messages_of st user
       end).
Proof.
  split.
  - intros w questions calls user st.
    assert (H : well_paired (memory_store st)).
    { apply run_calls_well_paired. apply well_paired_empty. }
    destruct (H user) as [xs Hx]. rewrite messages_of_store, Hx.
    split; [apply alternates_turns|].
    split; [rewrite turns_length; now exists (length xs)|].
    now exists xs.
  - intros st user query context.
    destruct (process_query_facts st user query context)
      as (result & st' & Hrun & _ & _ & _ & _ & Hm).
    now exists result, st'.
Qed.

(** *** How far back the history reaches *)

(** With a positive limit the reader returns the last [limit] stored
    exchanges, oldest first; nothing else bounds what it returns. *)
Lemma history_of_exchanges (st : state) user limit exchanges :
  messages_of st user = turns exchanges ->
  (0 < limit)%Z ->
  exists h st',
    history user limit st = (Return h, st') /\
    map exchange_of h = drop (length exchanges - Z.to_nat limit) exchanges.
Proof.
  intros Hm Hl.
  destruct (history_eq st user limit) as (h & st' & Hrun & _ & _ & _ & Hx).
  exists h, st'. split; [exact Hrun|].
  rewrite Hx, Hm.
  replace (- limit * 2)%Z with (- (limit * 2))%Z by lia.
  rewrite slice_from_neg by lia. rewrite turns_length.
  replace (2 * length exchanges - Z.to_nat (limit * 2))
    with (2 * (length exchanges - Z.to_nat limit)) by lia.
  rewrite drop_turns. apply pair_up_turns.
Qed.

(** The window [k] shows in the [buffer] view of a memory alone: of the
    stored exchanges it keeps the last ten. *)
Lemma buffer_of_exchanges (memory : ConversationBufferWindowMemory) exchanges :
  k memory = 10%Z ->
  chat_memory memory = turns exchanges ->
  buffer memory = turns (drop (length exchanges - 10) exchanges).
Proof.
  intros Hk Hm. unfold buffer. rewrite Hk, Hm.
  change (0 <? 10)%Z with true. cbv iota.
  change (- (10) * 2)%Z with (Z.opp 20).
  rewrite slice_from_neg by lia. rewrite turns_length.
  replace (2 * length exchanges - Z.to_nat 20)
    with (2 * (length exchanges - 10)) by lia.
  apply drop_turns.
Qed.

End AgentFacts.

(** ** The statements at the scripted world *)

Module Instances.
Import Samples.

(** C1: the claim fails at eleven exchanges. After eleven answered
    queries of one user the history read with limit 1000 holds all
    eleven exchanges, the oldest included: what [process_query] appends
    to and the reader slices is the unbounded message list, and the
    window of ten shows in the [buffer] view alone. *)
Theorem C1_eleven_exchanges_are_all_returned :
  exists h st' memory,
    messages_of after_eleven "u" = turns (combine (numbered "q" 11) (numbered "a" 11)) /\
    get_user_conversation_history Script.now "u" 1000 after_eleven = (Return h, st') /\
    map exchange_of h = combine (numbered "q" 11) (numbered "a" 11) /\
    length h = 11 /\
    ~ length h <= 10 /\
    hd_error (map exchange_of h) = Some ("q1", "a1") /\
    memory_store after_eleven !! "u" = Some memory /\
    k memory = 10%Z /\
    pair_up (buffer memory) = drop 1 (combine (numbered "q" 11) (numbered "a" 11)).
Proof.
  eexists. eexists. eexists.
  split; [vm_compute; reflexivity|].
  split; [vm_compute; reflexivity|].
  split; [vm_compute; reflexivity|].
  split; [reflexivity|].
  split; [simpl; lia|].
  split; [reflexivity|].
  split; [vm_compute; reflexivity|].
  split; [reflexivity|].
  vm_compute. reflexivity.
Qed.

(** C2, as the claim states it, fails: a successful query [hello] sent
    with the context [test_mode] leaves no user turn [hello] in the
    history; the turn stored is the context-augmented text. *)
Lemma C2_query_with_context_is_not_stored_unmodified :
  let run := process_query Script.invoke Script.now "u" "hello" test_mode answering in
  (exists result, fst run = Return result /\ error result = None) /\
  with_context "hello" test_mode = inr (baseline_input "hello") /\
  messages_of (snd run) "u"
    = [HumanMessage (baseline_input "hello"); AIMessage "hi"] /\
  ~ In (HumanMessage "hello") (messages_of (snd run) "u").
Proof.
  cbv zeta. split; [eexists; split; vm_compute; reflexivity|].
  split; [reflexivity|].
  split; [vm_compute; reflexivity|].
  vm_compute. intros [H|[H|[]]]; discriminate H.
Qed.

(** The amended C2 at that query. *)
Lemma C2_persisted_turn_is_text_sent_witness :
  exists result st',
    process_query Script.invoke Script.now "u" "hello" test_mode answering
      = (Return result, st') /\
    messages_of st' "u"
      = [HumanMessage (baseline_input "hello"); AIMessage "hi"] /\
    baseline_input "hello" <> "hello".
Proof.
  destruct (C2_persisted_turn_is_text_sent Script.invoke Script.now answering
              "u" "hello" test_mode (baseline_input "hello")
              {| output := "hi"; intermediate_steps := Some [] |}
              {| Script.answers := []; Script.ticks := 0 |} eq_refl eq_refl)
    as (result & st' & Hrun & _ & Hm & _ & _ & Hd).
  exists result, st'. split; [exact Hrun|]. split; [exact Hm|exact Hd].
Defined.

(** C3 at a query the reasoning service fails on. *)
Lemma C3_failed_query_changes_no_history_witness :
  exists result st',
    process_query Script.invoke Script.now "u" "hello" None failing = (Return result, st') /\
    confidence result = 0%Q /\
    error result = Some "service down" /\
    (forall u, messages_of st' u = messages_of failing u).
Proof.
  destruct (C3_failed_query_changes_no_history Script.invoke Script.now failing
              "u" "hello" None "hello" (Exception "service down")
              {| Script.answers := []; Script.ticks := 0 |} eq_refl eq_refl)
    as (result & st' & Hrun & Hc & He & _ & Hm & _ & _).
  exists result, st'. repeat split; assumption.
Defined.


(** C9 at the agent that stored one exchange. *)
Lemma C9_limit_zero_returns_every_pair_witness :
  exists h st',
    get_user_conversation_history Script.now "u" 0 after_one = (Return h, st') /\
    map exchange_of h = [("hello", "hi")] /\
    h <> [].
Proof.
  destruct (C9_limit_zero_returns_every_pair Script.now after_one "u" one_memory)
    as (h & st' & Hrun & _ & Hx & _ & Hne & _).
  - vm_compute. reflexivity.
  - simpl. lia.
  - exists h, st'. repeat split; assumption.
Defined.



End Instances.

(** ** More on strings *)

Module PyStrFacts.
Import PyStr.

Lemma lower_char_idem c : lower_char (lower_char c) = lower_char c.
Proof. destruct c as [[] [] [] [] [] [] [] []]; reflexivity. Qed.

Lemma isspace_lower_char c : isspace (lower_char c) = isspace c.
Proof. destruct c as [[] [] [] [] [] [] [] []]; reflexivity. Qed.

Lemma lower_char_colon c : Ascii.eqb (lower_char c) ":" = Ascii.eqb c ":".
Proof. destruct c as [[] [] [] [] [] [] [] []]; reflexivity. Qed.

Lemma lower_idem s : lower (lower s) = lower s.
Proof. induction s as [|c s IH]; simpl; [reflexivity|]. now rewrite lower_char_idem, IH. Qed.

Lemma lower_app a b : lower (a +:+ b) = lower a +:+ lower b.
Proof. induction a as [|c a IH]; simpl; [reflexivity|]. now rewrite IH. Qed.

Lemma lstrip_lower s : lstrip (lower s) = lower (lstrip s).
Proof.
  induction s as [|c s IH]; simpl; [reflexivity|].
  rewrite isspace_lower_char. destruct (isspace c); [exact IH|reflexivity].
Qed.

Lemma rstrip_lower s : rstrip (lower s) = lower (rstrip s).
Proof.
  induction s as [|c s IH]; simpl; [reflexivity|].
  rewrite IH, isspace_lower_char.
  destruct (rstrip s); simpl; [destruct (isspace c)|]; reflexivity.
Qed.

Lemma strip_lower s : strip (lower s) = lower (strip s).
Proof. unfold strip. now rewrite lstrip_lower, rstrip_lower. Qed.

Lemma split1_lower s : split1 ":" (lower s) = map lower (split1 ":" s).
Proof.
  induction s as [|c s IH]; simpl; [reflexivity|].
  rewrite lower_char_colon. destruct (Ascii.eqb c ":"); [reflexivity|].
  rewrite IH. destruct (split1 ":" s) as [|a [|b rest]]; reflexivity.
Qed.

Lemma prefix_empty s : String.prefix EmptyString s = true.
Proof. now destruct s. Qed.

Lemma prefix_app p b : String.prefix p (p +:+ b) = true.
Proof.
  induction p as [|c p IH]; simpl; [apply prefix_empty|].
  destruct (ascii_dec c c); [exact IH|congruence].
Qed.

Lemma contains_prefix p h : String.prefix p h = true -> contains p h = true.
Proof. intros H. destruct h; cbn [contains]; now rewrite H. Qed.

(** A text contains whatever stands somewhere inside it. *)
Lemma contains_app a p b : contains p (a +:+ p +:+ b) = true.
Proof.
  induction a as [|c a IH].
  - change (contains p (p +:+ b) = true). apply contains_prefix, prefix_app.
  - change (contains p (String c (a +:+ p +:+ b)) = true).
    cbn [contains]. rewrite IH. apply orb_true_r.
Qed.

(** [":" in s], character by character. *)
Lemma contains_colon c s :
  contains ":" (String c s) = Ascii.eqb c ":" || contains ":" s.
Proof.
  cbn [contains].
  change (String.prefix ":" (String c s))
    with (if ascii_dec ":" c then String.prefix EmptyString s else false).
  destruct (ascii_dec ":" c) as [<-|Hne].
  - now rewrite prefix_empty.
  - destruct (Ascii.eqb_spec c ":") as [->|_]; [congruence|reflexivity].
Qed.

Lemma split1_without_colon s : contains ":" s = false -> split1 ":" s = [s].
Proof.
  induction s as [|c s IH]; [reflexivity|].
  rewrite contains_colon. intros H. apply orb_false_iff in H as [Hc Hs].
  simpl. rewrite Hc, (IH Hs). reflexivity.
Qed.

(** Only the first colon splits. *)
Lemma split1_at_first_colon a b :
  contains ":" a = false -> split1 ":" (a +:+ ":" +:+ b) = [a; b].
Proof.
  induction a as [|c a IH]; [reflexivity|].
  rewrite contains_colon. intros H. apply orb_false_iff in H as [Hc Hs].
  simpl. rewrite Hc, (IH Hs). reflexivity.
Qed.

Lemma split1_with_colon s :
  contains ":" s = true ->
  exists a b, split1 ":" s = [a; b] /\ s = a +:+ ":" +:+ b /\ contains ":" a = false.
Proof.
  induction s as [|c s IH]; [discriminate|].
  rewrite contains_colon. simpl.
  destruct (Ascii.eqb_spec c ":") as [->|Hne]; simpl.
  - intros _. exists EmptyString, s. now repeat split.
  - intros H. destruct (IH H) as (a & b & Hs & -> & Ha).
    exists (String c a), b. rewrite Hs. repeat split.
    rewrite contains_colon, Ha.
    destruct (Ascii.eqb_spec c ":"); [congruence|reflexivity].
Qed.

End PyStrFacts.

(** ** More on the tool adapters *)

Module AdapterFacts.
Import PyStr PyList Json Tools Adapters PyStrFacts.

Lemma set_not_empty key v d : set key v d <> [].
Proof. destruct d as [|[k w] d]; simpl; [|destruct (String.eqb k key)]; discriminate. Qed.

Lemma dumps_indent_dict_head step level d :
  d <> [] -> exists rest, dumps_indent step level (JDict d) = String "{" rest.
Proof. destruct d as [|kv d]; [congruence|]. intros _. simpl. eexists. reflexivity. Qed.

Lemma lookup_platform_some platform table rules :
  lookup_platform platform table = Some rules -> In (platform, rules) table.
Proof.
  induction table as [|[n r] table IH]; simpl; [discriminate|].
  destruct (String.eqb_spec n platform) as [->|_].
  - intros [= ->]. now left.
  - intros H. right. auto.
Qed.

(** The compliance checker asks for the format [platform:content]
    exactly when its input holds no colon. *)
Theorem compliance_format_message_iff_no_colon (text : string) :
  _check_platform_compliance text = "Please format as 'platform:content'"
  <-> contains ":" text = false.
Proof.
  split.
  - intros H. destruct (contains ":" text) eqn:E; [exfalso|reflexivity].
    destruct (split1_with_colon text E) as (a & b & Hs & _ & _).
    unfold _check_platform_compliance, compliance_result in H. rewrite Hs in H.
    destruct (lookup_platform _ _) as [rules|].
    + match type of H with
      | dumps_indent _ _ (JDict ?d) = _ =>
          destruct (dumps_indent_dict_head 2 0 d) as [rest Hr]
      end.
      * destruct (creative_strategies rules); [apply set_not_empty|].
        destruct (violations_of _ rules), (workarounds rules); apply set_not_empty.
      * rewrite Hr in H. discriminate H.
    + discriminate H.
  - intros H. unfold _check_platform_compliance, compliance_result.
    now rewrite (split1_without_colon text H).
Qed.

(** Every dictionary the compliance checker serialises has the same
    six keys in the same order, names one of the five platforms of the
    table, and carries an empty [content_analysis]. *)
Theorem compliance_result_shape (text : string) (result : list (string * json)) :
  compliance_result text = inr result ->
  map fst result
    = ["platform"; "allowed"; "content_analysis"; "recommendations"; "violations";
       "creative_strategies"] /\
  get "content_analysis" result = Some (JDict []) /\
  exists platform,
    get "platform" result = Some (JStr platform) /\
    In platform ["facebook"; "instagram"; "google_ads"; "weedmaps"; "leafly"].
Proof.
  unfold compliance_result.
  destruct (split1 ":" text) as [|part0 [|part1 [|part2 rest]]]; try discriminate.
  destruct (lookup_platform _ _) as [rules|] eqn:E; [|discriminate].
  apply lookup_platform_some in E. intros [= <-].
  set (violations := violations_of _ rules). clearbody violations.
  simpl in E.
  destruct E as [E|[E|[E|[E|[E|[]]]]]]; injection E as <- <-;
    destruct violations; cbn;
    (split; [reflexivity|]); (split; [reflexivity|]);
    eexists; (split; [reflexivity|]); simpl; tauto.
Qed.

(** Of the five platforms only facebook ever gets a violation: for any
    other platform the checker reports no violation and recommends
    nothing, whatever the content. *)
Theorem compliance_flags_facebook_only (text : string) (result : list (string * json))
    (platform : string) :
  compliance_result text = inr result ->
  get "platform" result = Some (JStr platform) ->
  platform <> "facebook" ->
  get "violations" result = Some (JList []) /\
  get "recommendations" result = Some (JList []).
Proof.
  unfold compliance_result.
  destruct (split1 ":" text) as [|part0 [|part1 [|part2 rest]]]; try discriminate.
  destruct (lookup_platform _ _) as [rules|] eqn:E; [|discriminate].
  apply lookup_platform_some in E. intros [= <-].
  set (content_lower := lower (strip part1)). clearbody content_lower.
  simpl in E.
  destruct E as [E|[E|[E|[E|[E|[]]]]]]; injection E as <- <-; intros Hp Hne;
    [ destruct (violations_of _ _); cbn in Hp; congruence | .. ];
    vm_compute; split; reflexivity.
Qed.

(** What the checker flags on facebook: the three kinds of content, in
    the order of the platform's restrictions, and the three workarounds
    as soon as anything is flagged. *)
Theorem compliance_on_facebook (part0 content : string) :
  contains ":" part0 = false ->
  lower (strip part0) = "facebook" ->
  let content_lower := lower (strip content) in
  let violations :=
    (if any (fun word => contains word content_lower)
            ["cannabis"; "marijuana"; "weed"; "thc"]
     then ["Contains cannabis-related content"] else [])
    ++ (if contains "cbd" content_lower then ["Contains CBD references"] else [])
    ++ (if contains "hemp" content_lower then ["Contains hemp references"] else []) in
  exists result,
    compliance_result (part0 +:+ ":" +:+ content) = inr result /\
    get "allowed" result = Some (JBool false) /\
    get "violations" result = Some (strs violations) /\
    get "recommendations" result
      = Some (strs (match violations with
                    | [] => []
                    | _ => [ "Try wellness_angle approach";
                             "Try lifestyle_focus approach";
                             "Try educational_content approach" ]
                    end)).
Proof.
  intros Hc Hp. cbv zeta.
  unfold compliance_result. rewrite (split1_at_first_colon _ _ Hc), Hp.
  set (content_lower := lower (strip content)). clearbody content_lower.
  cbn [lookup_platform _load_platform_compliance String.eqb Ascii.eqb Bool.eqb].
  unfold violations_of, violation_of. cbn [restrictions map concat String.eqb Ascii.eqb Bool.eqb andb].
  destruct (any _ _); destruct (contains "cbd" _); destruct (contains "hemp" _);
    eexists; (split; [reflexivity|]); repeat split; reflexivity.
Qed.

(** For an input of code points below 256, on which [str.lower()] maps
    each character by itself, none of the four table-driven adapters
    looks at the letter case of its input. *)
Theorem table_adapters_ignore_case (text : string) :
  _check_platform_compliance (lower text) = _check_platform_compliance text /\
  _generate_creative_strategy (lower text) = _generate_creative_strategy text /\
  _market_intelligence_analysis (lower text) = _market_intelligence_analysis text /\
  _simulate_n8n_workflow (lower text) = _simulate_n8n_workflow text.
Proof.
  split; [|split; [|split]].
  - unfold _check_platform_compliance, compliance_result.
    rewrite split1_lower.
    destruct (split1 ":" text) as [|part0 [|part1 [|part2 rest]]]; try reflexivity.
    cbn [map]. now rewrite !strip_lower, !lower_idem.
  - unfold _generate_creative_strategy, creative_strategy, is_restricted.
    now rewrite lower_idem.
  - unfold _market_intelligence_analysis, market_intelligence, asks_cost, asks_audience.
    now rewrite lower_idem.
  - unfold _simulate_n8n_workflow, workflow_simulation. now rewrite lower_idem.
Qed.

(** Every workflow bundle has the same five keys in the same order; the
    content-approval pattern wins over the campaign-optimization one;
    the fallback bundle keeps the empty [automation_benefits] it
    started with. *)
Theorem workflow_keys_and_precedence (description : string) :
  map fst (workflow_simulation description)
    = ["workflow_name"; "trigger"; "nodes"; "expected_outcomes"; "automation_benefits"] /\
  (contains "content" (lower description) = true ->
   contains "approval" (lower description) = true ->
   get "workflow_name" (workflow_simulation description)
     = Some (JStr "Content Approval & Distribution")) /\
  (get "workflow_name" (workflow_simulation description)
     = Some (JStr "Generic Marketing Automation") ->
   get "automation_benefits" (workflow_simulation description) = Some (JList [])).
Proof.
  unfold workflow_simulation.
  destruct (contains "content" _), (contains "approval" _),
    (contains "campaign" _), (contains "optimization" _); cbn [andb];
    (split; [reflexivity|]); (split; [intros; try discriminate; reflexivity|]);
    intros H; try reflexivity; vm_compute in H; discriminate H.
Qed.

Lemma restricted_platforms_lower p : In p restricted_platforms -> lower p = p.
Proof. simpl. intros [<-|[<-|[<-|[]]]]; reflexivity. Qed.

Lemma any_true {A : Type} (f : A -> bool) l x : In x l -> f x = true -> any f l = true.
Proof.
  induction l as [|y l IH]; intros Hin Hx; [destruct Hin|]. simpl.
  destruct Hin as [->|Hin]; [now rewrite Hx|]. rewrite IH by assumption. apply orb_true_r.
Qed.

(** The strategy generator answers with one of two dictionaries: the
    wellness one exactly when the brief names a restricted platform, in
    any letter case and anywhere in the text, else the direct one. *)
Theorem creative_strategy_two_bundles (brief : string) :
  (creative_strategy brief = wellness_strategy \/ creative_strategy brief = direct_strategy) /\
  (creative_strategy brief = wellness_strategy <-> is_restricted brief = true) /\
  (forall before after platform,
     In platform restricted_platforms ->
     lower brief = lower before +:+ platform +:+ lower after ->
     creative_strategy brief = wellness_strategy).
Proof.
  unfold creative_strategy.
  split; [destruct (is_restricted brief); [left|right]; reflexivity|].
  split.
  - destruct (is_restricted brief); split; intros H; try reflexivity; discriminate.
  - intros before after platform Hin Hb.
    replace (is_restricted brief) with true; [reflexivity|].
    symmetry. unfold is_restricted. apply (any_true _ _ platform Hin).
    rewrite Hb. apply contains_app.
Qed.

(** The market analysis always starts with the same four sections,
    unchanged; a question about cost adds [cost_insights], one about the
    audience adds [audience_insights] after it. *)
Theorem market_intelligence_sections (query : string) :
  take 4 (market_intelligence query) = market_data /\
  map fst (market_intelligence query)
    = map fst market_data
        ++ (if asks_cost query then ["cost_insights"] else [])
        ++ (if asks_audience query then ["audience_insights"] else []) /\
  (get "cost_insights" (market_intelligence query) = Some cost_insights
   <-> asks_cost query = true) /\
  (get "audience_insights" (market_intelligence query) = Some audience_insights
   <-> asks_audience query = true).
Proof.
  unfold market_intelligence.
  destruct (asks_cost query), (asks_audience query);
    repeat split; intros; try reflexivity; try discriminate;
    match goal with H : _ |- _ => vm_compute in H; discriminate H end.
Qed.

(** The two retrieval adapters look at the head of what the
    collaborator returns only: documents after the third, and result
    rows after the fifth, never show in the answer. *)
Theorem retrieval_adapters_cut_results
    (collaborator : string -> exn + list string)
    (generate : string -> string -> exn + string)
    (text sparql : string) (kept dropped : list string) :
  kept <> [] ->
  (collaborator text = inr (kept ++ dropped) ->
   length kept = 3 ->
   _rag_search (Some collaborator) text = join (newline +:+ newline) kept) /\
  (generate text "marketing" = inr sparql ->
   collaborator sparql = inr (kept ++ dropped) ->
   length kept = 5 ->
   _sparql_query (Some collaborator) (Some generate) text
     = "SPARQL Query: " +:+ sparql +:+ newline +:+ newline +:+ "Results:" +:+ newline
         +:+ join newline kept).
Proof.
  intros Hne. split.
  - intros Hc Hl. unfold _rag_search. rewrite Hc.
    destruct kept as [|d kept]; [congruence|]. cbn [app].
    change (take 3 (d :: kept ++ dropped)) with (take 3 ((d :: kept) ++ dropped)).
    rewrite take_app_length' by (symmetry; exact Hl). reflexivity.
  - intros Hg Hc Hl. unfold _sparql_query. rewrite Hg, Hc.
    destruct kept as [|d kept]; [congruence|]. cbn [app].
    change (take 5 (d :: kept ++ dropped)) with (take 5 ((d :: kept) ++ dropped)).
    rewrite take_app_length' by (symmetry; exact Hl). reflexivity.
Qed.

(** Whatever collaborators are set up, the tools registered have
    pairwise distinct names; the four table-driven tools come first, the
    search tool is registered exactly with a retriever, the structured
    query tool exactly with both a knowledge base and a generator. *)
Theorem tools_registered (retriever rdf_kb : Collaborator) (sparql_generator : Generator) :
  let names := map name (_initialize_tools retriever rdf_kb sparql_generator) in
  List.NoDup names /\
  take 4 names
    = ["platform_compliance_check"; "creative_strategy_generator";
       "market_intelligence"; "n8n_workflow_simulator"] /\
  (In "marketing_knowledge_search" names <-> retriever <> None) /\
  (In "structured_marketing_query" names <-> rdf_kb <> None /\ sparql_generator <> None).
Proof.
  cbv zeta. unfold _initialize_tools.
  destruct retriever, rdf_kb, sparql_generator; cbn [map app name take];
    (split; [repeat (constructor;
                     [cbn [In]; intros H;
                      repeat (destruct H as [H|H]; [discriminate H|]); exact H|]);
             constructor|]);
    (split; [reflexivity|]);
    split; split; intros H;
      first [ solve [cbn [In]; repeat (first [left; reflexivity | right])]
            | solve [cbn [In] in H; repeat (destruct H as [H|H]; [discriminate H|]);
                     destruct H]
            | solve [discriminate]
            | solve [split; discriminate]
            | solve [exfalso; apply H; reflexivity]
            | solve [destruct H as [H1 H2];
                     first [exfalso; apply H1; reflexivity
                           | exfalso; apply H2; reflexivity]] ].
Qed.

End AdapterFacts.

(** ** More on rounding *)

Module Float64Bounds.
Import Float64 Float64Facts.

(** Rounding to the nearest integer never passes an integer bound. *)
Lemma rne_le_int n d K : (0 < d)%Z -> (n <= K * d)%Z -> (rne n d <= K)%Z.
Proof.
  intros Hd H. unfold rne.
  pose proof (Z.div_mod n d ltac:(lia)) as Hdm.
  pose proof (Z.mod_pos_bound n d Hd) as Hm.
  assert (Hq : (n / d <= K)%Z).
  { apply Z.div_le_upper_bound; lia. }
  destruct (Z.eq_dec (n / d)%Z K) as [E|E].
  - assert (n mod d = 0)%Z by (rewrite E in Hdm; lia).
    replace (2 * (n mod d) ?= d)%Z with Lt; [lia|].
    symmetry. apply Z.compare_lt_iff. lia.
  - destruct (2 * (n mod d) ?= d)%Z; [destruct (Z.even _)|..]; lia.
Qed.

Lemma rne_nonneg n d : (0 <= n)%Z -> (0 < d)%Z -> (0 <= rne n d)%Z.
Proof.
  intros Hn Hd. pose proof (rne_ge_floor n d Hd).
  pose proof (Z.div_pos n d Hn Hd). lia.
Qed.

Lemma scaled_snd_pos a b e : (0 < b)%Z -> (0 < snd (scaled a b e))%Z.
Proof.
  intros Hb. unfold scaled. destruct (0 <=? e)%Z eqn:E; simpl; [|exact Hb].
  apply Z.leb_le in E. apply Z.mul_pos_pos; [exact Hb|]. apply Z.pow_pos_nonneg; lia.
Qed.

Lemma scaled_fst_nonneg a b e : (0 <= a)%Z -> (0 <= fst (scaled a b e))%Z.
Proof.
  intros Ha. unfold scaled. destruct (0 <=? e)%Z eqn:E; simpl; [exact Ha|].
  apply Z.leb_gt in E. apply Z.mul_nonneg_nonneg; [exact Ha|].
  apply Z.pow_nonneg. lia.
Qed.

Lemma pow2_nonneg e : (0 <= pow2 e)%Q.
Proof.
  unfold pow2. destruct (0 <=? e)%Z eqn:E.
  - apply Z.leb_le in E. change 0%Q with (inject_Z 0). rewrite <- Zle_Qle.
    apply Z.pow_nonneg. lia.
  - unfold Qle. simpl. lia.
Qed.

Lemma round_pos_nonneg a b : (0 <= a)%Z -> (0 < b)%Z -> (0 <= round_pos a b)%Q.
Proof.
  intros Ha Hb. unfold round_pos.
  pose proof (scaled_snd_pos a b (ulp_exp a b) Hb) as Hd.
  pose proof (scaled_fst_nonneg a b (ulp_exp a b) Ha) as Hn.
  destruct (scaled a b (ulp_exp a b)) as [n d]. simpl in *.
  rewrite Qred_correct. apply Qmult_le_0_compat; [|apply pow2_nonneg].
  change 0%Q with (inject_Z 0). rewrite <- Zle_Qle. now apply rne_nonneg.
Qed.

(** Rounding keeps the sign. *)
Lemma round_nonneg q : (0 <= q)%Q -> (0 <= round q)%Q.
Proof.
  intros H. unfold round. rewrite <- (Qred_correct q) in H.
  destruct (Qred q) as [rn rd]. unfold Qle in H. simpl in *.
  destruct rn as [|a|a]; try lia.
  - apply Qle_refl.
  - apply round_pos_nonneg; lia.
Qed.

(** A value whose quotient lies below [2^(53-j)] has its last place at
    [2^(-j)] or below. *)
Lemma ulp_exp_le a b j :
  (0 < a)%Z -> (0 < b)%Z -> (0 <= j <= 1074)%Z ->
  (a * 2 ^ j < 2 ^ 53 * b)%Z ->
  (ulp_exp a b <= - j)%Z.
Proof.
  intros Ha Hb Hj H. unfold ulp_exp.
  destruct (Z.log2_spec a Ha) as [Ha1 Ha2].
  destruct (Z.log2_spec b Hb) as [Hb1 Hb2].
  pose proof (Z.log2_nonneg a) as Hla. pose proof (Z.log2_nonneg b) as Hlb.
  set (la := Z.log2 a) in *. set (lb := Z.log2 b) in *.
  assert (Hp : (0 < 2 ^ j)%Z) by (apply Z.pow_pos_nonneg; lia).
  assert (Hl : (la + j < lb + 54)%Z).
  { apply (Z.pow_lt_mono_r_iff 2); [lia|lia|].
    rewrite Z.pow_add_r by lia.
    replace (lb + 54)%Z with (53 + Z.succ lb)%Z by lia.
    rewrite Z.pow_add_r by lia.
    apply Z.le_lt_trans with (a * 2 ^ j)%Z.
    - apply Z.mul_le_mono_nonneg_r; lia.
    - apply Z.lt_trans with (2 ^ 53 * b)%Z; [exact H|].
      apply Z.mul_lt_mono_pos_l; lia. }
  set (e0 := (la - lb - 52)%Z).
  destruct (scaled a b e0) as [n0 d0] eqn:E0.
  destruct (Z_le_gt_dec e0 (- j)) as [He|He].
  - destruct (2 ^ 52 <=? n0 / d0)%Z; lia.
  - assert (He0 : e0 = (1 - j)%Z) by lia.
    replace (2 ^ 52 <=? n0 / d0)%Z with false; [lia|].
    symmetry. apply Z.leb_gt.
    unfold scaled in E0. rewrite He0 in E0.
    destruct (0 <=? 1 - j)%Z eqn:S; inversion E0; subst n0 d0.
    + apply Z.leb_le in S.
      apply Z.div_lt_upper_bound.
      * apply Z.mul_pos_pos; [lia|]. apply Z.pow_pos_nonneg; lia.
      * assert (Hj2 : j = 0%Z \/ j = 1%Z) by lia.
        destruct Hj2 as [-> | ->]; simpl in *; lia.
    + apply Z.leb_gt in S.
      apply Z.div_lt_upper_bound; [lia|].
      replace (- (1 - j))%Z with (j - 1)%Z by lia.
      replace j with (Z.succ (j - 1)) in H by lia.
      rewrite Z.pow_succ_r in H by lia. lia.
Qed.

(** Rounding never passes an upper bound that is itself a binary64
    value: a multiple [M * 2^(-j)] with [M] below [2^53]. *)
Lemma round_le_dyadic q M j :
  (0 <= M < 2 ^ 53)%Z -> (0 <= j <= 1074)%Z ->
  (q <= M # Z.to_pos (2 ^ j))%Q ->
  (round q <= M # Z.to_pos (2 ^ j))%Q.
Proof.
  intros HM Hj Hq. unfold round.
  assert (Hp : (0 < 2 ^ j)%Z) by (apply Z.pow_pos_nonneg; lia).
  assert (H0 : (0 <= M # Z.to_pos (2 ^ j))%Q) by (unfold Qle; simpl; lia).
  rewrite <- (Qred_correct q) in Hq.
  destruct (Qred q) as [rn rd]. cbn [Qnum Qden].
  destruct rn as [|a|a].
  - exact H0.
  - unfold Qle in Hq. cbn [Qnum Qden] in Hq. rewrite Z2Pos.id in Hq by lia.
    set (A := Z.pos a) in *. set (B := Z.pos rd) in *.
    assert (HA : (0 < A)%Z) by (unfold A; lia).
    assert (HB : (0 < B)%Z) by (unfold B; lia).
    assert (He : (ulp_exp A B <= - j)%Z).
    { apply ulp_exp_le; try lia.
      apply Z.le_lt_trans with (M * B)%Z; [exact Hq|].
      apply Z.mul_lt_mono_pos_r; lia. }
    unfold round_pos.
    pose proof (scaled_snd_pos A B (ulp_exp A B) HB) as Hd.
    destruct (scaled A B (ulp_exp A B)) as [n d] eqn:E. cbn [snd] in Hd.
    rewrite Qred_correct.
    set (e := ulp_exp A B) in *.
    set (K := (M * 2 ^ (- j - e))%Z).
    assert (Hk : (0 < 2 ^ (- j - e))%Z) by (apply Z.pow_pos_nonneg; lia).
    assert (Hr : (rne n d <= K)%Z).
    { apply rne_le_int; [exact Hd|]. unfold K.
      unfold scaled in E. destruct (0 <=? e)%Z eqn:S; inversion E; subst n d.
      - apply Z.leb_le in S. assert (e = 0%Z) by lia. assert (j = 0%Z) by lia.
        subst j. replace e with 0%Z in * by lia. simpl in *. lia.
      - apply Z.leb_gt in S.
        replace (- e)%Z with (j + (- j - e))%Z by lia.
        rewrite Z.pow_add_r by lia.
        replace (A * (2 ^ j * 2 ^ (- j - e)))%Z with ((A * 2 ^ j) * 2 ^ (- j - e))%Z by ring.
        replace (M * 2 ^ (- j - e) * B)%Z with ((M * B) * 2 ^ (- j - e))%Z by ring.
        apply Z.mul_le_mono_nonneg_r; lia. }
    apply Qle_trans with (inject_Z K * pow2 e)%Q.
    + apply Qmult_le_compat_r; [|apply pow2_nonneg]. now rewrite <- Zle_Qle.
    + unfold K, pow2. destruct (0 <=? e)%Z eqn:S.
      * apply Z.leb_le in S. assert (e = 0%Z) by lia. assert (j = 0%Z) by lia.
        subst j. replace e with 0%Z in * by lia.
        unfold Qle. simpl. lia.
      * apply Z.leb_gt in S.
        assert (Hpe : (0 < 2 ^ (- e))%Z) by (apply Z.pow_pos_nonneg; lia).
        unfold Qle. cbn [Qnum Qden Qmult inject_Z].
        rewrite Pos.mul_1_l, !Z2Pos.id by lia.
        replace (- e)%Z with (j + (- j - e))%Z by lia.
        rewrite Z.pow_add_r by lia. lia.
  - apply Qle_trans with 0%Q; [|exact H0].
    rewrite Qred_correct.
    assert (H : (0 <= round_pos (Z.pos a) (Z.pos rd))%Q) by (apply round_pos_nonneg; lia).
    unfold Qle in *. simpl in *. lia.
Qed.

(** Rounding never takes a value at or below 1 above 1. *)
Lemma round_le_1 q : (q <= 1)%Q -> (round q <= 1)%Q.
Proof. intros H. apply (round_le_dyadic q 1 0); [lia|lia|exact H]. Qed.

Lemma rne_le_half n d K : (0 < d)%Z -> (2 * n < (2 * K + 1) * d)%Z -> (rne n d <= K)%Z.
Proof.
  intros Hd H. unfold rne.
  pose proof (Z.div_mod n d ltac:(lia)) as Hdm.
  pose proof (Z.mod_pos_bound n d Hd) as Hm.
  assert (Hq : (n / d < K + 1)%Z).
  { apply Z.div_lt_upper_bound; lia. }
  destruct (Z.eq_dec (n / d)%Z K) as [E|E].
  - replace (2 * (n mod d) ?= d)%Z with Lt; [lia|].
    symmetry. apply Z.compare_lt_iff. rewrite E in Hdm. lia.
  - destruct (2 * (n mod d) ?= d)%Z; [destruct (Z.even _)|..]; lia.
Qed.

(** A value less than half a unit in the last place above 1 rounds to
    1 at most. *)
Lemma round_le_1_half q : (q <= 18014398509481985 # 18014398509481984)%Q -> (round q <= 1)%Q.
Proof.
  intros H. destruct (Qlt_le_dec 1 q) as [H1|H1]; [|now apply round_le_1].
  unfold round. rewrite <- (Qred_correct q) in H, H1.
  destruct (Qred q) as [rn rd]. cbn [Qnum Qden].
  unfold Qle in H. unfold Qlt in H1. cbn [Qnum Qden] in H, H1.
  destruct rn as [|a|a]; try lia.
  set (A := Z.pos a) in *. set (B := Z.pos rd) in *.
  assert (HB : (0 < B)%Z) by (unfold B; lia).
  assert (He : ulp_exp A B = (-52)%Z).
  { pose proof (ulp_exp_ge A B ltac:(lia)) as [Hg _].
    pose proof (ulp_exp_le A B 52 ltac:(lia) HB ltac:(lia)) as Hl.
    assert (A * 2 ^ 52 < 2 ^ 53 * B)%Z by lia.
    specialize (Hl ltac:(assumption)). lia. }
  unfold round_pos. rewrite He.
  change (scaled A B (-52)) with ((A * 2 ^ 52)%Z, B).
  rewrite Qred_correct.
  assert (Hr : (rne (A * 2 ^ 52) B <= 2 ^ 52)%Z).
  { apply rne_le_half; [exact HB|]. lia. }
  change (pow2 (-52)) with (1 # 4503599627370496)%Q.
  unfold Qle. cbn [Qnum Qden Qmult inject_Z]. lia.
Qed.

End Float64Bounds.

(** ** More on scoring *)

Module ScoringBounds.
Import PyStr PyList Scoring Float64Facts Float64Bounds ScoringFacts.

(** The double nearest to 0.4, and half of it, nearest to 0.2. *)
Lemma literal_04 : Float64.literal 4 1 = (3602879701896397 # 9007199254740992)%Q.
Proof. vm_compute. reflexivity. Qed.

Lemma literal_02 : Float64.literal 2 1 = (3602879701896397 # 18014398509481984)%Q.
Proof. vm_compute. reflexivity. Qed.

Lemma truediv_unit_interval m n :
  (0 <= m <= n)%Z -> (0 < n)%Z ->
  (0 <= Float64.truediv m n <= 1)%Q.
Proof.
  intros Hm Hn. unfold Float64.truediv. split.
  - apply round_nonneg. unfold Qle. simpl. lia.
  - apply round_le_1. unfold Qle. simpl. rewrite Z2Pos.id; lia.
Qed.

Lemma keyword_score_unit_interval p kws :
  (0 <= keyword_score_of (count_where p kws) kws <= 1)%Q.
Proof.
  unfold keyword_score_of. destruct kws as [|kw kws].
  - vm_compute. split; discriminate.
  - apply truediv_unit_interval.
    + pose proof (count_where_le p (kw :: kws)). lia.
    + simpl length. lia.
Qed.

Lemma marketing_score_unit_interval text : (0 <= marketing_score_of text <= 1)%Q.
Proof.
  unfold marketing_score_of. apply truediv_unit_interval.
  - pose proof (count_where_le (fun term => contains term text) marketing_terms). lia.
  - simpl. lia.
Qed.

Lemma length_score_unit_interval response : (0 <= length_score_of response <= 1)%Q.
Proof.
  unfold length_score_of, Float64.min, Float64.ltb.
  change (Float64.literal 1 0) with 1%Q.
  assert (H0 : (0 <= Float64.truediv (Z.of_nat (String.length response)) 200)%Q).
  { apply round_nonneg. unfold Qle. simpl. lia. }
  destruct (1 ?= _)%Q eqn:C.
  - split; [exact H0|]. apply Qeq_alt in C. rewrite <- C. apply Qle_refl.
  - split; discriminate.
  - split; [exact H0|]. apply Qgt_alt in C. now apply Qlt_le_weak.
Qed.

(** The weighted sum of three scores of the unit interval, rounded at
    every step, stays in the unit interval. *)
Lemma overall_score_unit_interval ks ms ls :
  (0 <= ks <= 1)%Q -> (0 <= ms <= 1)%Q -> (0 <= ls <= 1)%Q ->
  (0 <= overall_score_of ks ms ls <= 1)%Q.
Proof.
  intros [Hk0 Hk1] [Hm0 Hm1] [Hl0 Hl1].
  unfold overall_score_of, Float64.add, Float64.mul.
  rewrite literal_04, literal_02.
  set (c04 := (3602879701896397 # 9007199254740992)%Q).
  set (c02 := (3602879701896397 # 18014398509481984)%Q).
  assert (P4 : (0 <= c04)%Q) by discriminate.
  assert (P2 : (0 <= c02)%Q) by discriminate.
  assert (T1 : (0 <= Float64.round (ks * c04) <= c04)%Q).
  { split; [apply round_nonneg, Qmult_le_0_compat; assumption|].
    apply (round_le_dyadic _ 3602879701896397 53); [lia|lia|].
    change (3602879701896397 # Z.to_pos (2 ^ 53))%Q with c04.
    rewrite <- (Qmult_1_l c04) at 2. now apply Qmult_le_compat_r. }
  assert (T2 : (0 <= Float64.round (ms * c04) <= c04)%Q).
  { split; [apply round_nonneg, Qmult_le_0_compat; assumption|].
    apply (round_le_dyadic _ 3602879701896397 53); [lia|lia|].
    change (3602879701896397 # Z.to_pos (2 ^ 53))%Q with c04.
    rewrite <- (Qmult_1_l c04) at 2. now apply Qmult_le_compat_r. }
  assert (T3 : (0 <= Float64.round (ls * c02) <= c02)%Q).
  { split; [apply round_nonneg, Qmult_le_0_compat; assumption|].
    apply (round_le_dyadic _ 3602879701896397 54); [lia|lia|].
    change (3602879701896397 # Z.to_pos (2 ^ 54))%Q with c02.
    rewrite <- (Qmult_1_l c02) at 2. now apply Qmult_le_compat_r. }
  set (t1 := Float64.round (ks * c04)) in *.
  set (t2 := Float64.round (ms * c04)) in *.
  set (t3 := Float64.round (ls * c02)) in *.
  assert (S : (0 <= Float64.round (t1 + t2) <= 3602879701896397 # 4503599627370496)%Q).
  { split.
    - apply round_nonneg. change 0%Q with (0 + 0)%Q. apply Qplus_le_compat; tauto.
    - apply (round_le_dyadic _ 3602879701896397 52); [lia|lia|].
      apply Qle_trans with (c04 + c04)%Q; [apply Qplus_le_compat; tauto|].
      discriminate. }
  set (s := Float64.round (t1 + t2)) in *.
  split.
  - apply round_nonneg. change 0%Q with (0 + 0)%Q. apply Qplus_le_compat; tauto.
  - apply round_le_1_half.
    apply Qle_trans with ((3602879701896397 # 4503599627370496) + c02)%Q;
      [apply Qplus_le_compat; tauto|].
    discriminate.
Qed.

Lemma confidence_unit_interval (q : Question) (response : string) :
  (0 <= eval_confidence (_evaluate_baseline_response q response) <= 1)%Q.
Proof.
  unfold _evaluate_baseline_response. cbn [eval_confidence].
  apply overall_score_unit_interval.
  - apply keyword_score_unit_interval.
  - apply marketing_score_unit_interval.
  - apply length_score_unit_interval.
Qed.

(** Whatever the question and the response, the confidence the scoring
    function reports and the domain relevance lie between 0 and 1, and
    no more keywords are counted as matched than the question has. *)
Theorem evaluation_within_bounds (q : Question) (response : string) :
  let evaluation := _evaluate_baseline_response q response in
  (0 <= eval_confidence evaluation <= 1)%Q /\
  (0 <= marketing_relevance evaluation <= 1)%Q /\
  keyword_matches evaluation <= total_keywords evaluation /\
  (eval_passed evaluation = true
   <-> (Float64.literal 6 1 <= eval_confidence evaluation)%Q).
Proof.
  cbv zeta. unfold _evaluate_baseline_response.
  cbn [eval_confidence marketing_relevance keyword_matches total_keywords eval_passed].
  split; [|split; [|split]].
  - apply overall_score_unit_interval.
    + apply keyword_score_unit_interval.
    + apply marketing_score_unit_interval.
    + apply length_score_unit_interval.
  - apply marketing_score_unit_interval.
  - apply count_where_le.
  - unfold Float64.geb. apply Qle_bool_iff.
Qed.

Lemma contains_in_empty needle : needle <> EmptyString -> contains needle EmptyString = false.
Proof. destruct needle; [congruence|reflexivity]. Qed.

Lemma lower_not_empty s : s <> EmptyString -> lower s <> EmptyString.
Proof. destruct s; [congruence|discriminate]. Qed.

Lemma count_where_none {A : Type} (p : A -> bool) (l : list A) :
  (forall x, In x l -> p x = false) -> count_where p l = 0.
Proof.
  induction l as [|x l IH]; intros H; [reflexivity|]. simpl.
  rewrite (H x) by now left. apply IH. intros y Hy. apply H. now right.
Qed.

Lemma truediv_zero n : Float64.truediv 0 n = 0%Q.
Proof. reflexivity. Qed.

(** An empty response never passes: its confidence is 0.4 at most. It
    is 0.0 when the question has keywords none of which is the empty
    text, and 0.2 when the question has no keyword. *)
Theorem empty_response_never_passes (q : Question) :
  let evaluation := _evaluate_baseline_response q EmptyString in
  eval_passed evaluation = false /\
  (eval_confidence evaluation <= Float64.literal 4 1)%Q /\
  (default [] (keywords q) = [] -> eval_confidence evaluation = Float64.literal 2 1) /\
  (default [] (keywords q) <> [] ->
   (forall keyword, In keyword (default [] (keywords q)) -> keyword <> EmptyString) ->
   eval_confidence evaluation = 0%Q).
Proof.
  cbv zeta. unfold _evaluate_baseline_response.
  cbn [eval_confidence eval_passed].
  set (kws := default [] (keywords q)).
  change (marketing_score_of (lower EmptyString)) with 0%Q.
  change (length_score_of EmptyString) with 0%Q.
  set (ks := keyword_score_of _ kws).
  assert (Hks : (0 <= ks <= 1)%Q) by apply keyword_score_unit_interval.
  assert (Hle : (overall_score_of ks 0 0 <= Float64.literal 4 1)%Q).
  { unfold overall_score_of, Float64.add, Float64.mul. rewrite literal_04, literal_02.
    set (c04 := (3602879701896397 # 9007199254740992)%Q).
    change (Float64.round (0 * c04)) with 0%Q.
    change (Float64.round (0 * (3602879701896397 # 18014398509481984))) with 0%Q.
    assert (T1 : (Float64.round (ks * c04) <= c04)%Q).
    { apply (round_le_dyadic _ 3602879701896397 53); [lia|lia|].
      change (3602879701896397 # Z.to_pos (2 ^ 53))%Q with c04.
      rewrite <- (Qmult_1_l c04) at 2. apply Qmult_le_compat_r; [tauto|discriminate]. }
    assert (T2 : (Float64.round (Float64.round (ks * c04) + 0) <= c04)%Q).
    { apply (round_le_dyadic _ 3602879701896397 53); [lia|lia|].
      change (3602879701896397 # Z.to_pos (2 ^ 53))%Q with c04.
      now rewrite Qplus_0_r. }
    apply (round_le_dyadic _ 3602879701896397 53); [lia|lia|].
    change (3602879701896397 # Z.to_pos (2 ^ 53))%Q with c04.
    now rewrite Qplus_0_r. }
  split; [|split; [exact Hle|split]].
  - unfold Float64.geb. destruct (Qle_bool _ _) eqn:E; [|reflexivity].
    apply Qle_bool_iff in E. exfalso.
    assert (H : (Float64.literal 6 1 <= Float64.literal 4 1)%Q) by (eapply Qle_trans; eassumption).
    vm_compute in H. now apply H.
  - intros H. unfold ks. rewrite H. vm_compute. reflexivity.
  - intros Hne Hall. unfold ks.
    rewrite count_where_none.
    + unfold keyword_score_of. destruct kws; [congruence|].
      rewrite truediv_zero. vm_compute. reflexivity.
    + intros keyword Hin. apply contains_in_empty, lower_not_empty. now apply Hall.
Qed.

Lemma length_score_full response :
  200 <= String.length response -> length_score_of response = 1%Q.
Proof.
  intros H. unfold length_score_of. apply min_one.
  - apply truediv_ge_1. lia.
  - apply round_reduced.
Qed.

Lemma marketing_count_cases text :
  let c := count_where (fun term => contains term text) marketing_terms in
  c = 0 \/ c = 1 \/ c = 2 \/ c = 3 \/ c = 4 \/ c = 5 \/ c = 6.
Proof.
  cbv zeta. pose proof (count_where_le (fun term => contains term text) marketing_terms) as H.
  simpl length in H. lia.
Qed.


(** For a question without keywords a response of at least 200
    characters passes exactly when it names three or more of the six
    domain terms. *)
Theorem without_keywords_three_terms_decide (q : Question) (response : string) :
  default [] (keywords q) = [] ->
  200 <= String.length response ->
  (eval_passed (_evaluate_baseline_response q response) = true
   <-> 3 <= count_where (fun term => contains term (lower response)) marketing_terms).
Proof.
  intros Hk Hlen.
  unfold _evaluate_baseline_response. rewrite Hk. cbn [eval_passed].
  rewrite (length_score_full response Hlen).
  unfold marketing_score_of.
  destruct (marketing_count_cases (lower response)) as [H|[H|[H|[H|[H|[H|H]]]]]];
    rewrite H; vm_compute; split; intros H'; try reflexivity; try discriminate H'; lia.
Qed.

(** With scores of 0 for the keywords, [c / 6] for the domain terms and
    the length score of [len] characters, no response shorter than 200
    characters reaches 0.6. *)
Lemma short_unmatched_table :
  forallb (fun len =>
     forallb (fun c =>
        negb (Float64.geb
                (overall_score_of 0%Q (Float64.truediv (Z.of_nat c) 6)
                   (Float64.min (Float64.truediv (Z.of_nat len) 200) (Float64.literal 1 0)))
                (Float64.literal 6 1)))
       (seq 0 7))
    (seq 0 200) = true.
Proof. vm_compute. reflexivity. Qed.

(** A response that matches none of a question's keywords passes
    exactly when it names all six domain terms and has at least 200
    characters. *)
Theorem unmatched_keywords_need_all_terms_and_length
    (q : Question) (expected_keywords : list string) (response : string) :
  keywords q = Some expected_keywords ->
  expected_keywords <> [] ->
  (forall keyword, In keyword expected_keywords ->
     contains (lower keyword) (lower response) = false) ->
  (eval_passed (_evaluate_baseline_response q response) = true
   <-> count_where (fun term => contains term (lower response)) marketing_terms = 6
       /\ 200 <= String.length response).
Proof.
  intros Hk Hne Hnone.
  unfold _evaluate_baseline_response. rewrite Hk.
  change (default [] (Some expected_keywords)) with expected_keywords.
  cbn [eval_passed]. rewrite (count_where_none _ expected_keywords Hnone).
  replace (keyword_score_of 0 expected_keywords) with 0%Q
    by (destruct expected_keywords; [congruence|reflexivity]).
  unfold marketing_score_of.
  set (c := count_where _ marketing_terms).
  assert (Hc : c <= 6) by apply (count_where_le _ marketing_terms).
  change (Z.of_nat (length marketing_terms)) with 6%Z.
  destruct (le_lt_dec 200 (String.length response)) as [Hlen|Hlen].
  - rewrite (length_score_full response Hlen).
    assert (Hcases : c = 0 \/ c = 1 \/ c = 2 \/ c = 3 \/ c = 4 \/ c = 5 \/ c = 6) by lia.
    clearbody c.
    destruct Hcases as [H|[H|[H|[H|[H|[H|H]]]]]]; rewrite H; split; intros H';
      first [ solve [vm_compute in H'; discriminate H']
            | solve [apply proj1 in H'; discriminate H']
            | solve [split; [reflexivity|exact Hlen]]
            | solve [vm_compute; reflexivity] ].
  - pose proof short_unmatched_table as T.
    rewrite forallb_forall in T.
    specialize (T (String.length response)).
    rewrite forallb_forall in T.
    assert (Hin1 : In (String.length response) (seq 0 200)) by (apply in_seq; lia).
    assert (Hin2 : In c (seq 0 7)) by (apply in_seq; lia).
    specialize (T Hin1 c Hin2). apply negb_true_iff in T.
    unfold length_score_of. rewrite T.
    split; [discriminate|]. intros [_ H]. lia.
Qed.

End ScoringBounds.

(** ** The encoder of contexts *)

Module PyObjFacts.
Import Json PyObj.

(** The encoder raises exactly on a value that holds an instance. *)
Lemma to_json_serializable :
  forall v, serializable v = true <-> exists j, to_json v = inr j.
Proof.
  fix IH 1. intros [| b | n | s | l | d | c]; cbn [serializable to_json];
    try (split; [eauto|reflexivity]).
  - set (items := fix items (l : list pyobj) : exn + list json := _).
    assert (H : forallb serializable l = true <-> exists js, items l = inr js).
    { induction l as [|x l IHl]; cbn [forallb]; [split; eauto|].
      change (items (x :: l))
        with (match to_json x with
              | inl e => inl e
              | inr j => match items l with inl e => inl e | inr js => inr (j :: js) end
              end).
      rewrite andb_true_iff, (IH x), IHl. split.
      - intros [[j ->] [js ->]]. eauto.
      - intros [js H]. destruct (to_json x) as [e|j]; [discriminate|].
        destruct (items l) as [e|js']; [discriminate|]. eauto. }
    rewrite H. split.
    + intros [js ->]. eauto.
    + intros [j Hj]. destruct (items l) as [e|js]; [discriminate|]. eauto.
  - set (items := fix items (d : list (string * pyobj)) : exn + list (string * json) := _).
    assert (H : forallb (fun kv => serializable (snd kv)) d = true
                <-> exists js, items d = inr js).
    { induction d as [|[key x] d IHd]; cbn [forallb snd]; [split; eauto|].
      change (items ((key, x) :: d))
        with (match to_json x with
              | inl e => inl e
              | inr j => match items d with inl e => inl e | inr js => inr ((key, j) :: js) end
              end).
      rewrite andb_true_iff, (IH x), IHd. split.
      - intros [[j ->] [js ->]]. eauto.
      - intros [js H]. destruct (to_json x) as [e|j]; [discriminate|].
        destruct (items d) as [e|js']; [discriminate|]. eauto. }
    rewrite H. split.
    + intros [js ->]. eauto.
    + intros [j Hj]. destruct (items d) as [e|js]; [discriminate|]. eauto.
  - split; [discriminate|]. intros [j H]. discriminate H.
Qed.

(** The text is made, not raised, exactly when no value of the context
    holds an instance; a context that is missing or empty is not
    encoded at all. *)
Lemma with_context_returns query (context : option (list (string * pyobj))) :
  (exists text, with_context query context = inr text)
  <-> match context with
      | Some items => forallb (fun kv => serializable (snd kv)) items = true
      | None => True
      end.
Proof.
  destruct context as [[|item items]|]; [split; simpl; eauto| |split; simpl; eauto].
  change (forallb (fun kv => serializable (snd kv)) (item :: items))
    with (serializable (PDict (item :: items))).
  rewrite to_json_serializable. unfold with_context, json_dumps.
  destruct (to_json _) as [e|j]; split.
  - intros [text H]. discriminate H.
  - intros [j H]. discriminate H.
  - eauto.
  - eauto.
Qed.

End PyObjFacts.

(** ** More on the agent's methods *)

Section MoreAgentFacts.
Context {World : Type}.
Variable agent_executor_invoke : World -> AgentInput -> (exn + AgentOutput) * World.
Variable datetime_now : World -> string * World.

Abbreviation state := (@State World).
Abbreviation process := (process_query agent_executor_invoke datetime_now).
Abbreviation history := (get_user_conversation_history datetime_now).
Abbreviation baseline := (run_baseline_test agent_executor_invoke datetime_now).
Abbreviation step := (baseline_step agent_executor_invoke datetime_now).
Abbreviation queries := (baseline_queries agent_executor_invoke datetime_now).

Lemma div2_le_mono n m : n <= m -> Nat.div2 n <= Nat.div2 m.
Proof. intros H. rewrite !Nat.div2_div. now apply Nat.Div0.div_le_mono. Qed.

(** The history reader returns, oldest first, the last [limit] stored
    exchanges for a positive limit, every exchange for limit 0, and all
    but the first [-limit] exchanges for a negative limit. *)
Theorem history_window (st : state) user limit exchanges :
  messages_of st user = turns exchanges ->
  exists h st',
    history user limit st = (Return h, st') /\
    map exchange_of h = window limit exchanges.
Proof.
  intros Hm.
  destruct (history_eq datetime_now st user limit) as (h & st' & Hrun & _ & _ & _ & Hx).
  exists h, st'. split; [exact Hrun|].
  rewrite Hx, Hm. unfold window.
  destruct (0 <? limit)%Z eqn:E.
  - apply Z.ltb_lt in E.
    replace (- limit * 2)%Z with (- (limit * 2))%Z by lia.
    rewrite slice_from_neg by lia. rewrite turns_length.
    replace (2 * length exchanges - Z.to_nat (limit * 2))
      with (2 * (length exchanges - Z.to_nat limit)) by lia.
    rewrite drop_turns. apply pair_up_turns.
  - apply Z.ltb_ge in E. unfold PyList.slice_from.
    replace (- limit * 2 <? 0)%Z with false by (symmetry; apply Z.ltb_ge; lia).
    rewrite turns_length.
    set (n := Z.to_nat (- limit)).
    replace (Z.to_nat (Z.min (- limit * 2) (Z.of_nat (2 * length exchanges))))
      with (2 * Nat.min n (length exchanges)) by (unfold n; lia).
    rewrite drop_turns, pair_up_turns.
    destruct (le_lt_dec n (length exchanges)) as [Hn|Hn].
    + now rewrite Nat.min_l by exact Hn.
    + rewrite Nat.min_r by lia. now rewrite !drop_ge by lia.
Qed.

(** Reading the history changes neither the store nor the questions nor
    the requests sent; for a user without memory it returns the empty
    list and creates no memory; it never returns more entries than
    there are stored pairs, nor more than a positive limit. *)
Theorem history_reads_only (st : state) user limit :
  exists h st',
    history user limit st = (Return h, st') /\
    memory_store st' = memory_store st /\
    baseline_questions st' = baseline_questions st /\
    invoked st' = invoked st /\
    length h <= Nat.div2 (length (messages_of st user)) /\
    ((0 < limit)%Z -> length h <= Z.to_nat limit) /\
    (memory_store st !! user = None -> h = [] /\ st' = st).
Proof.
  destruct (history_eq datetime_now st user limit) as (h & st' & Hrun & Hs & Hq & Hi & Hx).
  exists h, st'. repeat (split; [assumption|]).
  assert (Hl : length h
               = Nat.div2 (length (PyList.slice_from (- limit * 2) (messages_of st user)))).
  { rewrite <- pair_up_length, <- Hx. now rewrite length_map. }
  split; [|split].
  - rewrite Hl. apply div2_le_mono. unfold PyList.slice_from. rewrite length_drop. lia.
  - intros Hpos. rewrite Hl.
    replace (- limit * 2)%Z with (- (limit * 2))%Z by lia.
    rewrite slice_from_neg by lia. rewrite length_drop.
    rewrite <- (Nat.div2_double (Z.to_nat limit)). apply div2_le_mono. lia.
  - intros Hn. rewrite (history_unknown datetime_now st user limit Hn) in Hrun.
    injection Hrun as <- <-. now split.
Qed.

(** Clearing a user's memory removes it: every later reading of that
    user's history is empty, no other user's messages change, clearing
    again changes nothing, and clearing a user without memory changes
    nothing at all. *)
Theorem clear_forgets_one_user (st : state) user :
  let st' := snd (clear_user_memory user st) in
  fst (clear_user_memory user st) = Return tt /\
  memory_store st' !! user = None /\
  (forall limit, history user limit st' = (Return [], st')) /\
  (forall u, u <> user -> messages_of st' u = messages_of st u) /\
  snd (clear_user_memory user st') = st' /\
  (memory_store st !! user = None -> st' = st).
Proof.
  cbv zeta. unfold clear_user_memory, with_store. cbn [fst snd memory_store].
  split; [reflexivity|].
  split; [apply lookup_delete_eq|].
  split. { intros limit. apply history_unknown. cbn [memory_store]. apply lookup_delete_eq. }
  split. { intros u Hu. rewrite !messages_of_store. cbn [memory_store].
           rewrite store_messages_delete. now rewrite decide_False by congruence. }
  split.
  - cbn [world memory_store baseline_questions invoked]. now rewrite delete_delete_eq.
  - intros Hn. rewrite (delete_id _ _ Hn). now destruct st.
Qed.

(** [_get_user_memory] hands back the memory of the user, a new one with
    window 10 and no message for a user without memory; it changes no
    user's messages, and asking again returns the same memory and
    changes nothing. *)
Theorem get_user_memory_is_idempotent (st : state) user :
  exists memory st1,
    _get_user_memory user st = (Return memory, st1) /\
    chat_memory memory = messages_of st user /\
    memory_store st1 !! user = Some memory /\
    _get_user_memory user st1 = (Return memory, st1) /\
    (forall u, messages_of st1 u = messages_of st u) /\
    (memory_store st !! user = None -> memory = new_memory /\ k memory = 10%Z).
Proof.
  unfold _get_user_memory, messages_of.
  destruct (memory_store st !! user) as [memory|] eqn:E.
  - exists memory, st. rewrite E. repeat split; try reflexivity; discriminate.
  - exists new_memory. eexists. split; [reflexivity|].
    unfold with_store. cbn [memory_store].
    rewrite lookup_insert_eq. repeat split; try reflexivity.
    intros u. destruct (decide (user = u)) as [<-|Hne].
    + now rewrite lookup_insert_eq, E.
    + now rewrite lookup_insert_ne.
Qed.

(** A query touches its own user only: nobody else's messages change,
    the user's own messages are kept and at most extended, and the
    question set stays. It sends one request, which carries the text
    with its context and every message stored for the user so far,
    unless [json.dumps] raises on the context: then no request goes
    out, the result carries the encoder's error and nothing is stored.
    The encoder raises exactly when a value of the context holds an
    instance it has no encoding for. *)
Theorem query_touches_one_user (st : state) user query context :
  exists result st',
    process user query context st = (Return result, st') /\
    (forall u, u <> user -> messages_of st' u = messages_of st u) /\
    messages_of st user `prefix_of` messages_of st' user /\
    baseline_questions st' = baseline_questions st /\
    match with_context query context with
    | inr text =>
        invoked st'
          = invoked st ++ [ {| input := text; chat_history := messages_of st user |} ]
    | inl e =>
        invoked st' = invoked st /\
        error result = Some (str_of_exn e) /\
        messages_of st' user = messages_of st user
    end /\
    ((exists text, with_context query context = inr text)
     <-> match context with
         | Some items => forallb (fun kv => PyObj.serializable (snd kv)) items = true
         | None => True
         end).
Proof.
  destruct (process_query_facts agent_executor_invoke datetime_now st user query context)
    as (result & st' & Hrun & Hq & Hi & _ & Ho & Hm).
  exists result, st'. repeat (split; [assumption|]).
  split.
  { destruct (error result); [now rewrite Hm|].
    destruct Hm as (text & _ & ->). now apply prefix_app_r. }
  split; [exact Hq|]. split; [|apply PyObjFacts.with_context_returns].
  destruct (with_context query context) as [e|text] eqn:Et; [|exact Hi].
  split; [now rewrite Hi, app_nil_r|].
  rewrite process_query_eq, Et in Hrun. cbv zeta in Hrun. injection Hrun as <- <-.
  cbn [error]. split; [reflexivity|].
  rewrite !messages_of_store. cbn [memory_store]. apply store_messages_ensure.
Qed.

(** What a query writes can be read back: after a query that reports no
    error, the history of that user read with limit 1 is the one
    exchange of the text sent and the response returned. *)
Theorem query_then_history_round_trip (st : state) user query context :
  exists result st',
    process user query context st = (Return result, st') /\
    (error result = None ->
     exists text h st'',
       with_context query context = inr text /\
       history user 1 st' = (Return h, st'') /\
       map exchange_of h = [(text, response result)]).
Proof.
  destruct (process_query_facts agent_executor_invoke datetime_now st user query context)
    as (result & st' & Hrun & _ & _ & _ & _ & Hm).
  exists result, st'. split; [exact Hrun|]. intros He. rewrite He in Hm.
  destruct Hm as (text & Ht & Hm).
  destruct (history_eq datetime_now st' user 1) as (h & st'' & Hh & _ & _ & _ & Hx).
  exists text, h, st''. split; [exact Ht|]. split; [exact Hh|].
  rewrite Hx, Hm. change (- 1 * 2)%Z with (Z.opp 2).
  rewrite slice_from_neg by lia. rewrite length_app.
  replace (length (messages_of st user) + length [HumanMessage text;
                                                   AIMessage (response result)]
           - Z.to_nat 2)
    with (length (messages_of st user)) by (simpl; lia).
  now rewrite drop_app_length.
Qed.

(** [process_query] always returns and never raises. Its result names
    the user and is of one of two kinds: no error, confidence 0.85, the
    output as response and a list of steps; or an error text, confidence
    0.0, no steps and the apology that ends with that text. Either way
    the confidence lies between 0 and 1. *)
Theorem query_result_kinds (st : state) user query context :
  exists result st',
    process user query context st = (Return result, st') /\
    user_id result = user /\
    (0 <= confidence result <= 1)%Q /\
    ((error result = None /\ confidence result = Float64.literal 85 2 /\
      result_steps result <> None)
     \/
     (exists text,
        error result = Some text /\ confidence result = 0%Q /\
        result_steps result = None /\
        response result
          = "I encountered an error processing your marketing query: " +:+ text)).
Proof.
  rewrite process_query_eq. cbv zeta.
  destruct (with_context query context) as [e0|text0];
    [|destruct (agent_executor_invoke _ _) as [[e|out] w]]; cbn [fst snd];
    eexists; eexists; (split; [reflexivity|]);
    cbn [user_id confidence error result_steps response];
    (split; [reflexivity|]); (split; [split; vm_compute; discriminate|]).
  - right. exists (str_of_exn e0). repeat split; reflexivity.
  - right. exists (str_of_exn e). repeat split; reflexivity.
  - left. repeat split; try reflexivity. discriminate.
Qed.

(** *** More on the baseline run *)

(** A baseline run changes no message of any user but [baseline_test]
    and leaves the question set as it was; with no question loaded it
    changes nothing at all, not even a memory stored under
    [baseline_test]. *)
Theorem baseline_run_touches_only_its_identity (st : state) question_id :
  let st' := snd (baseline question_id st) in
  (forall u, u <> "baseline_test" -> messages_of st' u = messages_of st u) /\
  baseline_questions st' = baseline_questions st /\
  (baseline_questions st = [] -> st' = st).
Proof.
  cbv zeta.
  destruct (run_baseline_frame agent_executor_invoke datetime_now st question_id)
    as (Hq & _ & Ho & _).
  split; [exact Ho|]. split; [exact Hq|].
  intros E. now rewrite run_baseline_empty by exact E.
Qed.

(** The request sent for the question at position [i] carries what was
    stored under the reserved identity and after it the exchanges of
    the questions before it whose result carries no error. *)
Lemma requests_of_lookup (texts : list string) :
  forall prior (results : list QueryResult) i text,
    length results = length texts ->
    texts !! i = Some text ->
    requests_of prior texts results !! i
    = Some {| input := baseline_input text;
              chat_history := prior ++ turns (written (take i texts) (take i results)) |}.
Proof.
  induction texts as [|text0 texts IH]; intros prior [|r rs] i text Hl Hi;
    try discriminate.
  destruct i as [|i].
  - injection Hi as <-. cbn. now rewrite app_nil_r.
  - cbn [requests_of take written]. cbn in Hi |- *.
    rewrite (IH _ rs i text) by (simpl in Hl; auto; lia).
    destruct (error r); [reflexivity|].
    cbn [turns]. now rewrite <- app_assoc.
Qed.

(** The requests of a baseline run over records that all have their
    question are chained. The run sends one request per selected
    record; with [answered] the results [process_query] returned for
    them in turn, the request for a question carries, as chat history,
    what was stored under [baseline_test] before the run and after it
    one exchange, the text sent and the response returned, for every
    earlier question of the run whose result carries no error. *)
Theorem baseline_requests_carry_earlier_exchanges (st : state) question_id texts :
  baseline_questions st <> [] ->
  map question (selected question_id (baseline_questions st)) = map Some texts ->
  let answered := fst (queries texts st) in
  let prior := messages_of st "baseline_test" in
  exists requests,
    invoked (snd (baseline question_id st)) = invoked st ++ requests /\
    length requests = length texts /\
    length answered = length texts /\
    requests = requests_of prior texts answered /\
    (forall i text,
       texts !! i = Some text ->
       requests !! i
       = Some {| input := baseline_input text;
                 chat_history
                   := prior ++ turns (written (take i texts) (take i answered)) |}).
Proof.
  intros Hne Ht. cbv zeta.
  rewrite (run_baseline_complete agent_executor_invoke datetime_now st question_id texts Hne Ht).
  cbv zeta. cbn [snd invoked].
  destruct (baseline_queries_facts agent_executor_invoke datetime_now texts st)
    as (Hl & _ & Hi & _).
  eexists. split; [exact Hi|].
  split; [now apply requests_of_inputs|]. split; [exact Hl|]. split; [reflexivity|].
  intros i text Hi'. now apply requests_of_lookup.
Qed.

(** A record without its question aborts the run. When the first five
    selected records are [good], all with their question, then [bad]
    without it, the run raises the [KeyError] of [bad] and returns no
    report; it has sent the requests of [good] and none after them, and
    it has not cleared the reserved identity: what was stored under
    [baseline_test] before the run is still there, followed by the
    exchanges of the questions of [good] whose result carries no
    error. *)
Theorem baseline_run_aborts_on_record_without_question
    (st : state) question_id good bad rest texts :
  baseline_questions st <> [] ->
  selected question_id (baseline_questions st) = good ++ bad :: rest ->
  map question good = map Some texts ->
  question bad = None ->
  let answered := fst (queries texts st) in
  let prior := messages_of st "baseline_test" in
  exists st',
    baseline question_id st = (Raise (Exception "'question'"), st') /\
    invoked st' = invoked st ++ requests_of prior texts answered /\
    length (requests_of prior texts answered) = length good /\
    messages_of st' "baseline_test" = prior ++ turns (written texts answered) /\
    prior `prefix_of` messages_of st' "baseline_test".
Proof.
  intros Hne Hs Hg Hb. cbv zeta.
  rewrite (run_baseline_abort agent_executor_invoke datetime_now
             st question_id good bad rest texts Hne Hs Hg Hb).
  destruct (baseline_queries_facts agent_executor_invoke datetime_now texts st)
    as (Hl & _ & Hi & _ & _ & Hm).
  eexists. split; [reflexivity|]. split; [exact Hi|].
  split.
  { destruct (requests_of_inputs texts (messages_of st "baseline_test") _ Hl) as [_ H2].
    rewrite H2, <- (length_map Some texts), <- Hg. now rewrite length_map. }
  split; [exact Hm|]. rewrite Hm. now apply prefix_app_r.
Qed.

Lemma scored_entry_bounds q text answer :
  entry_actual (scored_entry q text answer) = Some answer /\
  entry_error (scored_entry q text answer) = None /\
  (0 <= entry_confidence (scored_entry q text answer) <= 1)%Q.
Proof.
  split; [reflexivity|]. split; [reflexivity|].
  apply (ScoringBounds.confidence_unit_interval q answer).
Qed.

Lemma report_entries_bounds (qs : list Question) :
  forall texts (results : list QueryResult),
    length texts = length qs -> length results = length qs ->
    Forall2 (fun result entry =>
               entry_actual entry = Some (response result) /\
               entry_error entry = None /\
               (0 <= entry_confidence entry <= 1)%Q)
            results (report_entries qs texts results).
Proof.
  induction qs as [|q qs IH]; intros [|text texts] [|r rs] Ht Hr; try discriminate.
  - constructor.
  - cbn [report_entries]. constructor; [apply scored_entry_bounds|].
    apply IH; simpl in *; lia.
Qed.

(** The running sum of confidences between 0 and 1 stays between 0 and
    the number of entries added. *)
Lemma sum_confidence_bounds (results : list BaselineEntry) :
  forall (acc : Q) (n : Z),
    Forall (fun e => (0 <= entry_confidence e <= 1)%Q) results ->
    (0 <= n)%Z -> (n + Z.of_nat (length results) < 2 ^ 53)%Z ->
    (0 <= acc <= inject_Z n)%Q ->
    (0 <= fold_left (fun acc r => Float64.add acc (entry_confidence r)) results acc
       <= inject_Z (n + Z.of_nat (length results)))%Q.
Proof.
  induction results as [|e results IH]; intros acc n Hall Hn Hlt Hacc.
  - simpl. now rewrite Z.add_0_r.
  - inversion Hall as [|? ? He Hrest]; subst. cbn [fold_left length].
    replace (n + Z.of_nat (S (length results)))%Z
      with ((n + 1) + Z.of_nat (length results))%Z by lia.
    apply IH; [exact Hrest|lia|simpl length in Hlt; lia|].
    unfold Float64.add. split.
    + apply Float64Bounds.round_nonneg.
      change 0%Q with (0 + 0)%Q. apply Qplus_le_compat; tauto.
    + change (inject_Z (n + 1)) with ((n + 1) # Z.to_pos (2 ^ 0))%Q.
      apply Float64Bounds.round_le_dyadic; [simpl length in Hlt; lia|lia|].
      change ((n + 1) # Z.to_pos (2 ^ 0))%Q with (inject_Z (n + 1)).
      rewrite inject_Z_plus. apply Qplus_le_compat; tauto.
Qed.

Lemma average_confidence_bounds (results : list BaselineEntry) :
  Forall (fun e => (0 <= entry_confidence e <= 1)%Q) results ->
  length results <= 5 ->
  (0 <= average_confidence_of results <= 1)%Q.
Proof.
  intros Hall Hlen. unfold average_confidence_of.
  destruct results as [|e results]; [split; discriminate|].
  set (all := e :: results) in *.
  assert (Hs : (0 <= sum_confidence all <= inject_Z (0 + Z.of_nat (length all)))%Q).
  { apply sum_confidence_bounds; try assumption; try lia.
    split; apply Qle_refl. }
  rewrite Z.add_0_l in Hs.
  assert (Hn : Float64.of_int (Z.of_nat (length all)) = inject_Z (Z.of_nat (length all))).
  { assert (Hc : length all = 1 \/ length all = 2 \/ length all = 3
                 \/ length all = 4 \/ length all = 5) by (subst all; simpl in *; lia).
    destruct Hc as [->|[->|[->|[->| ->]]]]; reflexivity. }
  rewrite Hn. unfold Float64.div.
  assert (Hp : (0 < inject_Z (Z.of_nat (length all)))%Q).
  { change 0%Q with (inject_Z 0). rewrite <- Zlt_Qlt. subst all. simpl length. lia. }
  split.
  - apply Float64Bounds.round_nonneg. apply Qle_shift_div_l; [exact Hp|].
    rewrite Qmult_0_l. tauto.
  - apply Float64Bounds.round_le_1. apply Qle_shift_div_r; [exact Hp|].
    rewrite Qmult_1_l. tauto.
Qed.

(** Every entry of the report of a baseline run over records that all
    have their question is the scored entry of the response
    [process_query] returned for that record's question, the queries
    made one after the other: its [actual] is that response, it never
    carries an error, even when the query failed and the response is
    the apology, and its confidence lies between 0 and 1; the report
    counts no more passed entries than entries, and its average
    confidence lies between 0 and 1. *)
Theorem baseline_report_is_scored_and_bounded (st : state) question_id texts :
  baseline_questions st <> [] ->
  map question (selected question_id (baseline_questions st)) = map Some texts ->
  let answered := fst (queries texts st) in
  exists results passed average now st',
    baseline question_id st
      = (Return (BaselineReport "marketing" (length results) passed average results now),
         st') /\
    results = report_entries (selected question_id (baseline_questions st)) texts answered /\
    length results = length texts /\
    Forall2 (fun result entry =>
               entry_actual entry = Some (response result) /\
               entry_error entry = None /\
               (0 <= entry_confidence entry <= 1)%Q)
            answered results /\
    passed <= length results /\
    (0 <= average <= 1)%Q.
Proof.
  intros Hne Ht. cbv zeta.
  rewrite (run_baseline_complete agent_executor_invoke datetime_now st question_id texts Hne Ht).
  cbv zeta.
  destruct (baseline_queries_facts agent_executor_invoke datetime_now texts st)
    as (Hl & _).
  assert (Hlt : length texts = length (selected question_id (baseline_questions st))).
  { rewrite <- (length_map Some texts), <- Ht. now rewrite length_map. }
  destruct (report_entries_questions (selected question_id (baseline_questions st))
              texts (fst (queries texts st))) as [_ Hle]; [exact Hlt|congruence|].
  pose proof (report_entries_bounds (selected question_id (baseline_questions st))
                texts (fst (queries texts st)) Hlt ltac:(congruence)) as Hall.
  do 5 eexists. split; [reflexivity|]. split; [reflexivity|].
  split; [congruence|]. split; [exact Hall|].
  split; [apply ScoringFacts.count_where_le|].
  apply average_confidence_bounds.
  - apply Forall2_Forall_r with (Q := fun entry => (0 <= entry_confidence entry <= 1)%Q)
      in Hall; [exact Hall|].
    apply Forall_forall. intros result _ entry (_ & _ & H). exact H.
  - rewrite Hle. unfold selected. rewrite length_take. lia.
Qed.

End MoreAgentFacts.

(** ** The further statements at sample inputs *)

Module MoreInstances.
Import PyStr Json Tools Adapters Scoring Samples MoreSamples.
Import AdapterFacts ScoringBounds.

Lemma compliance_result_shape_witness :
  map fst weedmaps_result
    = ["platform"; "allowed"; "content_analysis"; "recommendations"; "violations";
       "creative_strategies"].
Proof.
  destruct (compliance_result_shape weedmaps_text weedmaps_result) as [H _].
  - vm_compute. reflexivity.
  - exact H.
Defined.

Lemma compliance_flags_facebook_only_witness :
  get "violations" weedmaps_result = Some (JList []) /\
  get "recommendations" weedmaps_result = Some (JList []).
Proof.
  apply (compliance_flags_facebook_only weedmaps_text weedmaps_result "weedmaps").
  - vm_compute. reflexivity.
  - vm_compute. reflexivity.
  - discriminate.
Defined.

Lemma compliance_on_facebook_witness :
  exists result,
    compliance_result (" FaceBook " +:+ ":" +:+ " Try our CBD and hemp oils") = inr result /\
    get "violations" result
      = Some (strs ["Contains CBD references"; "Contains hemp references"]).
Proof.
  destruct (compliance_on_facebook " FaceBook " " Try our CBD and hemp oils")
    as (result & Hr & _ & Hv & _).
  - vm_compute. reflexivity.
  - vm_compute. reflexivity.
  - exists result. split; [exact Hr|exact Hv].
Defined.

Lemma workflow_keys_and_precedence_witness :
  get "workflow_name"
      (workflow_simulation "Content approval before campaign optimization")
    = Some (JStr "Content Approval & Distribution").
Proof.
  apply (proj1 (proj2 (workflow_keys_and_precedence
                         "Content approval before campaign optimization"))).
  - vm_compute. reflexivity.
  - vm_compute. reflexivity.
Defined.

Lemma creative_strategy_two_bundles_witness :
  creative_strategy "Launch on Instagram stories" = wellness_strategy.
Proof.
  apply (proj2 (proj2 (creative_strategy_two_bundles "Launch on Instagram stories"))
           "Launch on " " stories" "instagram").
  - simpl. tauto.
  - vm_compute. reflexivity.
Defined.

Lemma retrieval_adapters_cut_results_witness :
  _rag_search (Some six_texts) "reach"
    = join (newline +:+ newline) (numbered "text " 3) /\
  _sparql_query (Some six_texts) (Some generate_select) "reach"
    = "SPARQL Query: SELECT marketing" +:+ newline +:+ newline +:+ "Results:" +:+ newline
        +:+ join newline (numbered "text " 5).
Proof.
  split.
  - apply (proj1 (retrieval_adapters_cut_results six_texts generate_select
                    "reach" "SELECT marketing"
                    (numbered "text " 3) ["text 4"; "text 5"; "text 6"]
                    ltac:(discriminate))).
    + vm_compute. reflexivity.
    + reflexivity.
  - apply (proj2 (retrieval_adapters_cut_results six_texts generate_select
                    "reach" "SELECT marketing"
                    (numbered "text " 5) ["text 6"]
                    ltac:(discriminate))).
    + reflexivity.
    + vm_compute. reflexivity.
    + reflexivity.
Defined.

Lemma empty_response_never_passes_witness :
  eval_passed (_evaluate_baseline_response sample_question EmptyString) = false /\
  eval_confidence (_evaluate_baseline_response sample_question EmptyString) = 0%Q /\
  eval_confidence (_evaluate_baseline_response keyword_free_question EmptyString)
    = Float64.literal 2 1.
Proof.
  split; [apply (empty_response_never_passes sample_question)|]. split.
  - apply (proj2 (proj2 (proj2 (empty_response_never_passes sample_question)))).
    + discriminate.
    + intros keyword [<-|[<-|[]]]; discriminate.
  - apply (proj1 (proj2 (proj2 (empty_response_never_passes keyword_free_question)))).
    reflexivity.
Defined.


Lemma without_keywords_three_terms_decide_witness :
  eval_passed (_evaluate_baseline_response keyword_free_question jargon_response) = true.
Proof.
  apply (without_keywords_three_terms_decide keyword_free_question jargon_response).
  - reflexivity.
  - vm_compute. lia.
  - vm_compute. lia.
Defined.

Lemma unmatched_keywords_need_all_terms_and_length_witness :
  eval_passed (_evaluate_baseline_response sample_question jargon_response) = true.
Proof.
  apply (unmatched_keywords_need_all_terms_and_length
           sample_question ["Reach"; "budget"] jargon_response).
  - reflexivity.
  - discriminate.
  - intros keyword [<-|[<-|[]]]; vm_compute; reflexivity.
  - split; vm_compute; [reflexivity|lia].
Defined.

Lemma history_window_witness :
  exists h st',
    get_user_conversation_history Script.now "u" 3 after_eleven = (Return h, st') /\
    map exchange_of h = [("q9", "a9"); ("q10", "a10"); ("q11", "a11")].
Proof.
  destruct (history_window Script.now after_eleven "u" 3
              (combine (numbered "q" 11) (numbered "a" 11)))
    as (h & st' & Hrun & Hx).
  - vm_compute. reflexivity.
  - exists h, st'. split; [exact Hrun|exact Hx].
Defined.

Lemma history_reads_only_witness :
  exists h st',
    get_user_conversation_history Script.now "nobody" 5 after_one = (Return h, st') /\
    memory_store st' = memory_store after_one /\
    h = [] /\ st' = after_one.
Proof.
  destruct (history_reads_only Script.now after_one "nobody" 5)
    as (h & st' & Hrun & Hs & _ & _ & _ & _ & Hn).
  destruct Hn as [Hh Hst]; [vm_compute; reflexivity|].
  exists h, st'. repeat split; assumption.
Defined.

Lemma clear_forgets_one_user_witness :
  memory_store (snd (clear_user_memory "u" after_one)) !! "u" = None /\
  snd (clear_user_memory "nobody" after_one) = after_one.
Proof.
  split.
  - apply (clear_forgets_one_user Script.now after_one "u").
  - apply (clear_forgets_one_user Script.now after_one "nobody").
    vm_compute. reflexivity.
Defined.

Lemma get_user_memory_is_idempotent_witness :
  exists memory st1,
    _get_user_memory "u" answering = (Return memory, st1) /\
    _get_user_memory "u" st1 = (Return memory, st1) /\
    memory = new_memory.
Proof.
  destruct (get_user_memory_is_idempotent answering "u")
    as (memory & st1 & Hrun & _ & _ & Hagain & _ & Hnew).
  destruct Hnew as [Hm _]; [vm_compute; reflexivity|].
  exists memory, st1. repeat split; assumption.
Defined.

Lemma query_touches_one_user_witness :
  (exists result st',
     process_query Script.invoke Script.now "v" "hey" None busy = (Return result, st') /\
     messages_of st' "u" = messages_of busy "u") /\
  (exists result st',
     process_query Script.invoke Script.now "v" "hey" dated busy = (Return result, st') /\
     invoked st' = invoked busy /\
     error result = Some "Object of type datetime is not JSON serializable").
Proof.
  split.
  - destruct (query_touches_one_user Script.invoke Script.now busy "v" "hey" None)
      as (result & st' & Hrun & Ho & _).
    exists result, st'. split; [exact Hrun|]. apply Ho. discriminate.
  - destruct (query_touches_one_user Script.invoke Script.now busy "v" "hey" dated)
      as (result & st' & Hrun & _ & _ & _ & Hd & _).
    change (with_context "hey" dated)
      with (@inl exn string (PyObj.not_serializable "datetime")) in Hd.
    destruct Hd as (Hi & He & _).
    exists result, st'. split; [exact Hrun|]. split; [exact Hi|exact He].
Defined.

Lemma query_then_history_round_trip_witness :
  exists result st' h st'',
    process_query Script.invoke Script.now "u" "hello" test_mode answering
      = (Return result, st') /\
    get_user_conversation_history Script.now "u" 1 st' = (Return h, st'') /\
    map exchange_of h = [(baseline_input "hello", response result)].
Proof.
  destruct (query_then_history_round_trip Script.invoke Script.now answering
              "u" "hello" test_mode)
    as (result & st' & Hrun & Hback).
  destruct Hback as (text & h & st'' & Ht & Hh & Hx).
  - pose proof Hrun as Hc. vm_compute in Hc. injection Hc as Hr _. now rewrite <- Hr.
  - rewrite with_context_test_mode in Ht. injection Ht as <-.
    exists result, st', h, st''. repeat split; assumption.
Defined.

Lemma baseline_run_touches_only_its_identity_witness :
  messages_of (snd (run_baseline_test Script.invoke Script.now None busy)) "u"
    = messages_of busy "u" /\
  snd (run_baseline_test Script.invoke Script.now None without_questions)
    = without_questions.
Proof.
  split.
  - apply (baseline_run_touches_only_its_identity Script.invoke Script.now busy None).
    discriminate.
  - apply (baseline_run_touches_only_its_identity Script.invoke Script.now
             without_questions None).
    reflexivity.
Defined.

Lemma baseline_requests_carry_earlier_exchanges_witness :
  exists requests,
    invoked (snd (run_baseline_test Script.invoke Script.now None squatted))
      = invoked squatted ++ requests /\
    length requests = 5 /\
    requests !! 1
    = Some {| input := baseline_input "Question 2";
              chat_history := [ HumanMessage "hello"; AIMessage "hi";
                                HumanMessage (baseline_input "Question 1");
                                AIMessage "answer 1" ] |}.
Proof.
  destruct (baseline_requests_carry_earlier_exchanges Script.invoke Script.now
              squatted None (texts_of (take 5 seven_questions))
              ltac:(discriminate) eq_refl)
    as (requests & Hi & Hl & _ & _ & Hat).
  exists requests. split; [exact Hi|]. split; [exact Hl|].
  rewrite (Hat 1 "Question 2" eq_refl). vm_compute. reflexivity.
Defined.

Lemma baseline_run_aborts_on_record_without_question_witness :
  exists st',
    run_baseline_test Script.invoke Script.now None gapped
      = (Raise (Exception "'question'"), st') /\
    length (invoked st') = 1 /\
    messages_of st' "baseline_test"
      = [HumanMessage (baseline_input "Which platform first?"); AIMessage "answer 1"].
Proof.
  destruct (baseline_run_aborts_on_record_without_question Script.invoke Script.now
              gapped None [first_record] gap_record [last_record]
              ["Which platform first?"]
              ltac:(discriminate) eq_refl eq_refl eq_refl)
    as (st' & Hrun & Hi & Hl & Hm & _).
  exists st'. split; [exact Hrun|].
  split; [rewrite Hi, length_app, Hl; reflexivity|].
  rewrite Hm. vm_compute. reflexivity.
Defined.

Lemma baseline_report_is_scored_and_bounded_witness :
  exists results passed average now st',
    run_baseline_test Script.invoke Script.now None with_seven
      = (Return (BaselineReport "marketing" (length results) passed average results now),
         st') /\
    map entry_actual results = map Some (numbered "answer " 5) /\
    passed <= length results /\
    (0 <= average <= 1)%Q.
Proof.
  destruct (baseline_report_is_scored_and_bounded Script.invoke Script.now
              with_seven None (texts_of (take 5 seven_questions))
              ltac:(discriminate) eq_refl)
    as (results & passed & average & now & st' & Hrun & Hr & _ & _ & Hp & Ha).
  exists results, passed, average, now, st'. split; [exact Hrun|].
  split; [rewrite Hr; vm_compute; reflexivity|].
  split; [exact Hp|exact Ha].
Defined.

End MoreInstances.
